(** * Dataproc cluster inspection rules: a shallow embedding

    This development embeds the functions of
    [spark_rapids_dataproc_tools/dataproc_utils.py] as Rocq definitions and
    proves properties of them.

    Conventions of the embedding.
    - A Python [str] is a Rocq [string]; the embedding covers ASCII text
      (code points below 128).  [upper], [lower], [splitlines], [repr], the
      regular expression classes [\d] and [\s] and [int] follow CPython on
      that range.
    - The bytes a process writes are kept by what [decode('utf-8')] makes of
      them: a text, or a [UnicodeDecodeError].
    - A Python [int] is a [Z].
    - A call that may raise returns an [outcome]: [Ret v] for a normal
      return, [Raise e] for an exception that propagates to the caller, and
      [Bail headline cause] for the fatal-error path that ends the process.
    - A [dict] is an association list in insertion order. *)

From Stdlib Require Import ZArith List String Ascii Bool Lia.
From Stdlib Require Import DecimalString.
Import ListNotations.

#[local] Open Scope string_scope.
#[local] Open Scope Z_scope.

(* ===================================================================== *)
(** ** Python string primitives *)
(* ===================================================================== *)

Module PyStr.

Definition code (c : ascii) : Z := Z.of_N (N_of_ascii c).

Definition chr (n : Z) : ascii := ascii_of_N (Z.to_N n).

Definition tab : string := String (chr 9) "".
Definition nl : string := String (chr 10) "".

Definition is_upper (c : ascii) : bool := (65 <=? code c) && (code c <=? 90).
Definition is_lower (c : ascii) : bool := (97 <=? code c) && (code c <=? 122).
Definition is_digit (c : ascii) : bool := (48 <=? code c) && (code c <=? 57).

(** [str.isspace] on ASCII: tab, LF, VT, FF, CR, the four separators
    0x1c..0x1f and the blank.  The class [\s] of a [str] pattern is the
    same set. *)
Definition is_space (c : ascii) : bool :=
  ((9 <=? code c) && (code c <=? 13))
  || ((28 <=? code c) && (code c <=? 31))
  || (code c =? 32).

Definition upper_char (c : ascii) : ascii :=
  if is_lower c then chr (code c - 32) else c.

Definition lower_char (c : ascii) : ascii :=
  if is_upper c then chr (code c + 32) else c.

Fixpoint map_chars (f : ascii -> ascii) (s : string) : string :=
  match s with
  | EmptyString => EmptyString
  | String c r => String (f c) (map_chars f r)
  end.

(** [s.upper()] and [s.lower()]. *)
Definition upper (s : string) : string := map_chars upper_char s.
Definition lower (s : string) : string := map_chars lower_char s.

(** [s.startswith(p)]. *)
Fixpoint startswith (s p : string) {struct p} : bool :=
  match p with
  | EmptyString => true
  | String pc pr =>
      match s with
      | EmptyString => false
      | String sc sr => Ascii.eqb sc pc && startswith sr pr
      end
  end.

(** [s.find(sub)]: the lowest index at which [sub] occurs, or [-1]. *)
Fixpoint find_from (i : Z) (s sub : string) : Z :=
  if startswith s sub then i
  else match s with
       | EmptyString => -1
       | String _ r => find_from (i + 1) r sub
       end.

Definition find (s sub : string) : Z := find_from 0 s sub.

(** [s.split(sep)] for a one-character separator: never empty. *)
Fixpoint split (sep : ascii) (s : string) : list string :=
  match s with
  | EmptyString => [EmptyString]
  | String c r =>
      if Ascii.eqb c sep then EmptyString :: split sep r
      else match split sep r with
           | h :: t => String c h :: t
           | [] => [String c EmptyString]
           end
  end.

(** Line boundaries of [str.splitlines] on ASCII: LF, VT, FF, CR and the
    separators 0x1c, 0x1d, 0x1e; CR LF counts once. *)
Definition is_linebreak (c : ascii) : bool :=
  ((10 <=? code c) && (code c <=? 13))
  || ((28 <=? code c) && (code c <=? 30)).

Fixpoint splitlines (s : string) : list string :=
  match s with
  | EmptyString => []
  | String c r =>
      if is_linebreak c then
        match r with
        | String c' r' =>
            if (code c =? 13) && (code c' =? 10)
            then EmptyString :: splitlines r'
            else EmptyString :: splitlines r
        | EmptyString => [EmptyString]
        end
      else match splitlines r with
           | h :: t => String c h :: t
           | [] => [String c EmptyString]
           end
  end.

(** [sep.join(parts)]. *)
Fixpoint join (sep : string) (parts : list string) : string :=
  match parts with
  | [] => EmptyString
  | [p] => p
  | p :: rest => p ++ sep ++ join sep rest
  end.

(** The white space that [int] skips around a numeral in an ASCII text:
    the blank and 0x09..0x0d.  The separators 0x1c..0x1f are white space for
    [str.isspace] and for [\s] but not here, [int] rejects them. *)
Definition is_int_space (c : ascii) : bool :=
  ((9 <=? code c) && (code c <=? 13)) || (code c =? 32).

Fixpoint lstrip (s : string) : string :=
  match s with
  | EmptyString => EmptyString
  | String c r => if is_int_space c then lstrip r else s
  end.

Fixpoint rstrip (s : string) : string :=
  match s with
  | EmptyString => EmptyString
  | String c r =>
      match rstrip r with
      | EmptyString => if is_int_space c then EmptyString else String c EmptyString
      | r' => String c r'
      end
  end.

Definition strip (s : string) : string := rstrip (lstrip s).

Definition digit_value (c : ascii) : Z := code c - 48.

(** The digit part of an integer literal: digits, with single underscores
    allowed between two digits. *)
Fixpoint digits_value (acc : Z) (s : string) : option Z :=
  match s with
  | EmptyString => Some acc
  | String c r =>
      if is_digit c then digits_value (10 * acc + digit_value c) r
      else if code c =? 95 then
        match r with
        | String c' _ => if is_digit c' then digits_value acc r else None
        | EmptyString => None
        end
      else None
  end.

Definition int_body (s : string) : option Z :=
  match s with
  | String c _ => if is_digit c then digits_value 0 s else None
  | EmptyString => None
  end.

(** [int(s)] in base 10: surrounding white space is dropped, one sign is
    allowed; [None] stands for the [ValueError] of CPython.  The limit that
    an interpreter may put on the number of digits
    ([sys.set_int_max_str_digits]) is a setting of the interpreter and is
    taken as switched off. *)
Definition parse_int (s : string) : option Z :=
  match strip s with
  | String c r =>
      if code c =? 43 then int_body r
      else if code c =? 45 then option_map Z.opp (int_body r)
      else int_body (String c r)
  | EmptyString => None
  end.

(** [str(n)] for an integer. *)
Definition str_of_int (n : Z) : string := NilZero.string_of_int (Z.to_int n).

Fixpoint mem_char (c : ascii) (s : string) : bool :=
  match s with
  | EmptyString => false
  | String c' r => Ascii.eqb c' c || mem_char c r
  end.

Definition quote1 : ascii := chr 39.
Definition quote2 : ascii := chr 34.
Definition backslash : ascii := chr 92.

Definition hex_digit (n : Z) : ascii :=
  if n <? 10 then chr (48 + n) else chr (87 + n).

(** One character of [repr(s)] between the quotes [q]. *)
Definition repr_char (q c : ascii) : string :=
  if Ascii.eqb c q || Ascii.eqb c backslash then String backslash (String c "")
  else if code c =? 9 then String backslash "t"
  else if code c =? 10 then String backslash "n"
  else if code c =? 13 then String backslash "r"
  else if (code c <? 32) || (code c =? 127)
       then String backslash
              (String "x" (String (hex_digit (code c / 16))
                             (String (hex_digit (code c mod 16)) "")))
  else String c "".

Fixpoint repr_body (q : ascii) (s : string) : string :=
  match s with
  | EmptyString => EmptyString
  | String c r => repr_char q c ++ repr_body q r
  end.

(** [repr(s)]: double quotes when the text holds an apostrophe and no double
    quote, single quotes otherwise. *)
Definition repr (s : string) : string :=
  let q := if mem_char quote1 s && negb (mem_char quote2 s) then quote2 else quote1 in
  String q (repr_body q s ++ String q "").

End PyStr.

Import PyStr.

(* ===================================================================== *)
(** ** Exceptions and outcomes *)
(* ===================================================================== *)

Module Effects.

(** The exception classes the module constructs or meets. *)
Inductive exn : Type :=
| ValueError (msg : string)
| TypeError (msg : string)
| IndexError (msg : string)
| AttributeError (msg : string)
| UnicodeDecodeError (msg : string)
| Exception_ (msg : string).

Inductive outcome (A : Type) : Type :=
| Ret (a : A)
| Raise (e : exn)
| Bail (headline : string) (cause : exn).

Arguments Ret {A} a.
Arguments Raise {A} e.
Arguments Bail {A} headline cause.

Definition bind {A B : Type} (c : outcome A) (k : A -> outcome B) : outcome B :=
  match c with
  | Ret a => k a
  | Raise e => Raise e
  | Bail h e => Bail h e
  end.

Definition returns {A : Type} (c : outcome A) : bool :=
  match c with Ret _ => true | _ => false end.

(** Modelled from the spec: [bail] of the sibling utility library, the
    centralized fatal-error reporting path: it logs the headline plus the
    underlying cause and terminates the process. *)
Definition bail {A : Type} (headline : string) (cause : exn) : outcome A :=
  Bail headline cause.

(** [l[i]] for a non-negative index. *)
Definition index {A : Type} (l : list A) (i : nat) : outcome A :=
  match nth_error l i with
  | Some x => Ret x
  | None => Raise (IndexError "list index out of range")
  end.

(** [l[-1]]. *)
Definition index_last {A : Type} (l : list A) : outcome A :=
  match rev l with
  | x :: _ => Ret x
  | [] => Raise (IndexError "list index out of range")
  end.

(** [int(s)] with its [ValueError]. *)
Definition int_ (s : string) : outcome Z :=
  match parse_int s with
  | Some n => Ret n
  | None => Raise (ValueError ("invalid literal for int() with base 10: " ++ repr s))
  end.

End Effects.

Import Effects.

Notation "x <- c ;; k" := (bind c (fun x => k))
  (at level 61, c at next level, right associativity).

(* ===================================================================== *)
(** ** GPU and machine compatibility rules *)
(* ===================================================================== *)

Module Rules.

Definition supported_list : list string := ["T4"; "V100"; "K80"; "A100"; "P100"].

(** The [for] loop of [parse_supported_gpu] over a list of names. *)
Fixpoint first_found (normalized : string) (names : list string) : option string :=
  match names with
  | [] => None
  | gpu_device :: rest =>
      if negb (find normalized gpu_device =? -1) then Some gpu_device
      else first_found normalized rest
  end.

Definition parse_supported_gpu (value : string) : option string :=
  let normalized := upper value in
  first_found normalized supported_list.

Definition is_machine_compatible_for_gpu (machine_type : string) : bool :=
  let normalized_mc := lower machine_type in
  startswith normalized_mc "n1-".

Definition dataproc_n1_cores : list Z := [2; 4; 8; 16; 32; 64; 96].

(** The [for] loop of [get_core]: the first ladder entry [c >= core]. *)
Fixpoint first_at_least (core : Z) (cores : list Z) : option Z :=
  match cores with
  | [] => None
  | c :: rest => if c >=? core then Some c else first_at_least core rest
  end.

Definition get_core (core : Z) : Z :=
  match first_at_least core dataproc_n1_cores with
  | Some c => c
  | None => last dataproc_n1_cores 0
  end.

Definition map_to_closest_supported_match (machine_type : string) : outcome string :=
  let instance_name_parts := split "-" machine_type in
  original_core <- index_last instance_name_parts ;;
  tier <- index instance_name_parts 1 ;;
  core <- int_ original_core ;;
  Ret ("n1-" ++ tier ++ "-" ++ str_of_int (get_core core)).

(** The keyword arguments of [get_incompatible_criteria]: each of the three
    criteria is supplied or not. *)
Record criteria : Type := {
  imageVersion : option string;
  machineType : option string;
  workerLocalSSDs : option Z
}.

(** The values stored in an incompatibility report. *)
Inductive value : Type :=
| VStr (s : string)
| VInt (n : Z)
| VComments (c : list (string * string)).

(** [d[k] = v] on an insertion-ordered dictionary. *)
Fixpoint dict_set {V : Type} (k : string) (v : V) (d : list (string * V))
  : list (string * V) :=
  match d with
  | [] => [(k, v)]
  | (k', v') :: rest =>
      if String.eqb k' k then (k, v) :: rest
      else (k', v') :: dict_set k v rest
  end.

(** [d.get(k)]. *)
Fixpoint dict_get {V : Type} (k : string) (d : list (string * V)) : option V :=
  match d with
  | [] => None
  | (k', v) :: rest => if String.eqb k' k then Some v else dict_get k rest
  end.

Definition report : Type := list (string * value).

Definition image_comment (image_ver : string) : string :=
  "The cluster image " ++ image_ver
  ++ " is not supported. To support the RAPIDS user tools, "
  ++ "you will need to use an image that runs Spark3.x.".

Definition machine_comment (machine_type converted_type : string) : string :=
  "To support acceleration with T4 GPUs, you will need to switch "
  ++ "your worker node instance type <" ++ machine_type ++ "> to "
  ++ converted_type ++ ".".

Definition ssd_comment : string :=
  "Worker nodes have no local SSDs. "
  ++ "Local SSD is recommended for Spark scratch space to improve IO.".

(** The three [if] blocks of [get_incompatible_criteria], each acting on the
    pair of dictionaries [incompatible] and [comments]. *)
Definition check_image (c : criteria) (st : report * list (string * string))
  : report * list (string * string) :=
  let (incompatible, comments) := st in
  match imageVersion c with
  | Some image_ver =>
      if startswith image_ver "1.5"
      then (dict_set "imageVersion" (VStr "2.0+") incompatible,
            dict_set "imageVersion" (image_comment image_ver) comments)
      else st
  | None => st
  end.

Definition check_machine (c : criteria) (st : report * list (string * string))
  : outcome (report * list (string * string)) :=
  let (incompatible, comments) := st in
  match machineType c with
  | Some machine_type =>
      if negb (is_machine_compatible_for_gpu machine_type) then
        converted_type <- map_to_closest_supported_match machine_type ;;
        Ret (dict_set "machineType" (VStr converted_type) incompatible,
             dict_set "machineType" (machine_comment machine_type converted_type) comments)
      else Ret st
  | None => Ret st
  end.

Definition check_ssds (c : criteria) (st : report * list (string * string))
  : report * list (string * string) :=
  let (incompatible, comments) := st in
  match workerLocalSSDs c with
  | Some local_ssds =>
      if local_ssds =? 0
      then (dict_set "workerLocalSSDs" (VInt 1) incompatible,
            dict_set "workerLocalSSDs" ssd_comment comments)
      else st
  | None => st
  end.

Definition get_incompatible_criteria (c : criteria) : outcome report :=
  let st0 : report * list (string * string) := ([], []) in
  let st1 := check_image c st0 in
  st2 <- check_machine c st1 ;;
  let (incompatible, comments) := check_ssds c st2 in
  if (0 <? Z.of_nat (List.length comments))
  then Ret (dict_set "comments" (VComments comments) incompatible)
  else Ret incompatible.

End Rules.

Import Rules.

(* ===================================================================== *)
(** ** Command execution layer *)
(* ===================================================================== *)

Module Cmd.

(** The bytes captured from a stream, by what [decode('utf-8')] makes of
    them, the one thing the module does with them: the text they decode to,
    or no text, with the codec's account of the offending byte. *)
Inductive captured : Type :=
| Text (s : string)
| Undecodable (reason : string).

(** [b.decode('utf-8')], strict. *)
Definition decode (b : captured) : outcome string :=
  match b with
  | Text s => Ret s
  | Undecodable reason => Raise (UnicodeDecodeError reason)
  end.

(** What [subprocess.run] hands back. *)
Record CompletedProcess : Type := {
  args : string;
  returncode : Z;
  stdout : captured;
  stderr : captured
}.

(** The second positional argument of a failure handler: not passed at
    all, or passed (possibly as [None]). *)
Inductive msg_arg : Type :=
| NoMsg
| Msg (m : option string).

Definition handler : Type := exn -> msg_arg -> outcome unit.

(** [CMDRunner]: the [debug] flag and the class attribute [fail_action],
    which is [None] until a caller installs a handler.  What the [logger]
    receives is returned next to the outcome of [run]. *)
Record CMDRunner : Type := {
  debug : bool;
  fail_action : option handler
}.

(** Truth value of an [Optional[str]]. *)
Definition truthy (m : option string) : bool :=
  match m with
  | Some s => negb (String.eqb s "")
  | None => false
  end.

Definition prefix_lines (text : string) : list string :=
  map (fun line => tab ++ "| " ++ line) (splitlines text).

(** The body of the [try]: the exception it raises for a process with an
    unexpected exit code.  A [stderr] that does not decode raises first. *)
Definition raised_for (c : CompletedProcess) : exn :=
  match decode (stderr c) with
  | Ret stderror_content =>
      let std_error_lines := prefix_lines stderror_content in
      let stderr_str :=
        if 0 <? Z.of_nat (List.length std_error_lines)
        then nl ++ join nl std_error_lines else "" in
      let cmd_err_msg := "Error invoking CMD <" ++ args c ++ ">: " ++ stderr_str in
      Exception_ cmd_err_msg
  | Raise e => e
  | Bail _ e => e
  end.

(** [except Exception as ex] catches either exception of the [try]. *)
Definition _check_subprocess_result (self : CMDRunner) (c : CompletedProcess)
    (expected : Z) (msg_fail : option string) : outcome unit :=
  if negb (returncode c =? expected) then
    let ex := raised_for c in
    match fail_action self with
    | None =>
        if truthy msg_fail
        then bail (match msg_fail with Some m => m | None => "" end) ex
        else bail "Error invoking cmd" ex
    | Some h => h ex (Msg msg_fail)
    end
  else Ret tt.

Definition debug_message (cmd std_output std_error : string) : string :=
  let std_output_lines := prefix_lines std_output in
  let std_error_lines := prefix_lines std_error in
  let stdout_str :=
    if 0 <? Z.of_nat (List.length std_output_lines)
    then nl ++ tab ++ "<STDOUT>" ++ nl ++ join nl std_output_lines else "" in
  let stderr_str :=
    if 0 <? Z.of_nat (List.length std_error_lines)
    then nl ++ tab ++ "<STDERR>" ++ nl ++ join nl std_error_lines else "" in
  "executing CMD:" ++ nl ++ tab ++ "<CMD: " ++ cmd ++ ">" ++ stdout_str ++ stderr_str.

Section Process.

(** The operating system: the completed process of a shell command. *)
Variable subprocess_run : string -> CompletedProcess.

(** [run] returns its outcome and the records sent to [logger.debug]. *)
Definition run (self : CMDRunner) (cmd : string) (expected : Z)
    (fail_ok : bool) (msg_fail : option string)
  : outcome string * list string :=
  let c := subprocess_run cmd in
  let checked :=
    if negb fail_ok then _check_subprocess_result self c expected msg_fail
    else Ret tt in
  match checked with
  | Ret _ =>
      match decode (stdout c) with
      | Ret std_output =>
          match decode (stderr c) with
          | Ret std_error =>
              (Ret std_output,
               if debug self then [debug_message cmd std_output std_error] else [])
          | Raise e => (Raise e, [])
          | Bail h e => (Bail h e, [])
          end
      | Raise e => (Raise e, [])
      | Bail h e => (Bail h e, [])
      end
  | Raise e => (Raise e, [])
  | Bail h e => (Bail h e, [])
  end.

Definition gcloud (self : CMDRunner) (cmd : string) (expected : Z)
    (msg_fail : option string) (fail_ok : bool)
  : outcome string * list string :=
  let gcloud_cmd := "gcloud " ++ cmd in
  run self gcloud_cmd expected fail_ok msg_fail.

End Process.

(** [self.cli.fail_action(...)] called directly: calling the attribute
    while it is still [None] raises [TypeError]. *)
Definition call_fail_action (cli : CMDRunner) (ex : exn) (m : msg_arg)
  : outcome unit :=
  match fail_action cli with
  | Some h => h ex m
  | None => Raise (TypeError "'NoneType' object is not callable")
  end.

End Cmd.

Import Cmd.

(* ===================================================================== *)
(** ** Cluster property container (live) *)
(* ===================================================================== *)

Module Container.

(** [l[-4:]]. *)
Definition last4 {A : Type} (l : list A) : list A :=
  skipn (List.length l - 4) l.

Definition __decode_machine_type_uri (cli : CMDRunner) (uri : string)
  : outcome (string * string) :=
  let uri_parts := last4 (split "/" uri) in
  p0 <- index uri_parts 0 ;;
  mismatch <-
    (if negb (String.eqb p0 "zones") then Ret true
     else p2 <- index uri_parts 2 ;; Ret (negb (String.eqb p2 "machineTypes"))) ;;
  _ <- (if (mismatch : bool)
        then call_fail_action cli
               (ValueError ("Unable to parse machine type from machine type URI: " ++ uri))
               (Msg (Some "Failed while processing CPU info"))
        else Ret tt) ;;
  zone_val <- index uri_parts 1 ;;
  machine_type_val <- index uri_parts 3 ;;
  Ret (zone_val, machine_type_val).

(** The longest prefix of [s] whose characters satisfy [p], and the rest. *)
Fixpoint span (p : ascii -> bool) (s : string) : string * string :=
  match s with
  | EmptyString => (EmptyString, EmptyString)
  | String c r =>
      if p c then let (a, b) := span p r in (String c a, b)
      else (EmptyString, s)
  end.

Fixpoint drop (n : nat) (s : string) : string :=
  match n, s with
  | O, _ => s
  | S k, String _ r => drop k r
  | S _, EmptyString => EmptyString
  end.

(** One attempt of the pattern [(\d+)\s+(MiB)] at the start of [s]: the two
    groups and the text after the match.  Both repetitions are greedy and
    giving characters back never helps: a digit is no white space and a
    white space is no [M]. *)
Definition match_here (s : string) : option ((string * string) * string) :=
  let (digits, r1) := span is_digit s in
  match digits with
  | EmptyString => None
  | _ =>
      let (blanks, r2) := span is_space r1 in
      match blanks with
      | EmptyString => None
      | _ => if startswith r2 "MiB" then Some ((digits, "MiB"), drop 3 r2) else None
      end
  end.

(** [re.findall] for that pattern: leftmost matches, each search resuming
    where the previous match ended.  [fuel] bounds the number of steps. *)
Fixpoint findall_fuel (fuel : nat) (s : string) : list (string * string) :=
  match fuel with
  | O => []
  | S f =>
      match s with
      | EmptyString => []
      | String _ r =>
          match match_here s with
          | Some (groups, rest) => groups :: findall_fuel f rest
          | None => findall_fuel f r
          end
      end
  end.

Definition findall (s : string) : list (string * string) :=
  findall_fuel (String.length s) s.

(** The [for] loop over the matches of [get_worker_gpu_info]. *)
Fixpoint mem_loop (match_arr : list (string * string)) (gpu_mem : Z) : outcome Z :=
  match match_arr with
  | [] => Ret gpu_mem
  | (mem_size, mem_unit) :: rest =>
      n <- int_ mem_size ;;
      mem_loop rest (Z.max n gpu_mem)
  end.

(** [get_worker_gpu_info] from the point where the response is known. *)
Definition gpu_info_of_response (cli : CMDRunner) (gpu_info : string)
  : outcome (Z * Z) :=
  let match_arr := findall gpu_info in
  let num_gpus := Z.of_nat (List.length match_arr) in
  _ <- (if num_gpus =? 0
        then call_fail_action cli
               (ValueError ("Unrecognized GPU memory output format: " ++ gpu_info))
               NoMsg
        else Ret tt) ;;
  gpu_mem <- mem_loop match_arr 0 ;;
  Ret (num_gpus, gpu_mem).

(** [get_worker_gpu_device] from the point where the response is known.
    The [return] is the last statement of the loop body, so the loop ends
    in its first iteration; with no line at all the function falls off its
    end and returns [None]. *)
Definition gpu_device_of_response (cli : CMDRunner) (gpu_devices : string)
  : outcome (option string) :=
  let all_lines := splitlines gpu_devices in
  _ <- (if Z.of_nat (List.length all_lines) =? 0
        then call_fail_action cli
               (ValueError ("Unrecognized tesla device: " ++ gpu_devices))
               (Msg (Some "Failed while processing GpuDevice"))
        else Ret tt) ;;
  match all_lines with
  | [] => Ret None
  | line :: _ =>
      let gpu_device := parse_supported_gpu line in
      _ <- (match gpu_device with
            | None =>
                call_fail_action cli
                  (ValueError ("Unrecognized tesla device: " ++ line))
                  (Msg (Some "Failed while processing GpuDevice"))
            | Some _ => Ret tt
            end) ;;
      Ret gpu_device
  end.

(** The two remote queries, [gpu_cmd] of either function, and the advisory
    message of the memory query. *)
Definition gpu_name_cmd (zone worker : string) : string :=
  "compute ssh " ++ worker ++ " --zone=" ++ zone ++ " "
  ++ "--command='nvidia-smi --query-gpu=gpu_name --format=csv,noheader'".

Definition gpu_memory_cmd (zone worker : string) : string :=
  "compute ssh " ++ worker ++ " --zone=" ++ zone ++ " "
  ++ "--command='nvidia-smi --query-gpu=memory.total --format=csv,noheader'".

Definition no_driver_msg : string :=
  "Cluster does not support GPU. Please install NVIDIA drivers.".

Section Live.

Variable subprocess_run : string -> CompletedProcess.
Variable cli : CMDRunner.

(** [zone] and [worker] are the results of [get_zone()] and of the lookup
    of the first worker instance name. *)
Definition get_worker_gpu_device (zone worker : string) : outcome (option string) :=
  let gpu_cmd := gpu_name_cmd zone worker in
  gpu_devices <- fst (gcloud subprocess_run cli gpu_cmd 0 None false) ;;
  gpu_device_of_response cli gpu_devices.

Definition get_worker_gpu_info (zone worker : string) : outcome (Z * Z) :=
  let gpu_cmd := gpu_memory_cmd zone worker in
  gpu_info <- fst (gcloud subprocess_run cli gpu_cmd 0 (Some no_driver_msg) false) ;;
  gpu_info_of_response cli gpu_info.

End Live.

End Container.

Import Container.

(* ===================================================================== *)
(** ** Shadow cluster property container (offline) *)
(* ===================================================================== *)

Module Shadow.

(** A loaded YAML document. *)
#[warnings="-register-all"] Inductive yaml : Type :=
| YNull
| YBool (b : bool)
| YInt (n : Z)
| YStr (s : string)
| YList (items : list yaml)
| YDict (entries : list (string * yaml)).

(** Induction over documents, through the entries of sequences and
    mappings. *)
Section YamlInduction.

Variable P : yaml -> Prop.
Hypothesis Hnull : P YNull.
Hypothesis Hbool : forall b, P (YBool b).
Hypothesis Hint : forall n, P (YInt n).
Hypothesis Hstr : forall s, P (YStr s).
Hypothesis Hlist : forall items, Forall P items -> P (YList items).
Hypothesis Hdict :
  forall entries, Forall (fun kv => P (snd kv)) entries -> P (YDict entries).

Fixpoint yaml_induct (v : yaml) : P v :=
  match v with
  | YNull => Hnull
  | YBool b => Hbool b
  | YInt n => Hint n
  | YStr s => Hstr s
  | YList items =>
      Hlist items
        ((fix go (l : list yaml) : Forall P l :=
            match l with
            | [] => Forall_nil P
            | x :: r => Forall_cons x (yaml_induct x) (go r)
            end) items)
  | YDict entries =>
      Hdict entries
        ((fix go (l : list (string * yaml)) : Forall (fun kv => P (snd kv)) l :=
            match l with
            | [] => Forall_nil _
            | (k, x) :: r =>
                Forall_cons (P := fun kv => P (snd kv)) (k, x) (yaml_induct x) (go r)
            end) entries)
  end.

End YamlInduction.

Definition is_config_key (key : string) : bool :=
  String.eqb key "config" || String.eqb key "clusterConfig".

(** [_dfs_configuration(curr_props)] on the mapping held by [v]. *)
Fixpoint dfs_value (v : yaml) : option (list (string * yaml)) :=
  match v with
  | YDict entries =>
      (fix items (l : list (string * yaml)) : option (list (string * yaml)) :=
         match l with
         | [] => None
         | (key, value) :: rest =>
             match value with
             | YDict _ =>
                 if is_config_key key then Some [("config", value)]
                 else match dfs_value value with
                      | Some returned => Some returned
                      | None => items rest
                      end
             | _ => items rest
             end
         end) entries
  | _ => None
  end.

Definition _dfs_configuration (curr_props : list (string * yaml))
  : option (list (string * yaml)) :=
  dfs_value (YDict curr_props).

Section Preprocess.

(** [convert_dict_to_camel_case] of the sibling utility library. *)
Variable convert_dict_to_camel_case : list (string * yaml) -> list (string * yaml).

(** The new value of [self.props]; [None] is Python's [None]. *)
Definition _process_loaded_props (props : list (string * yaml))
  : option (list (string * yaml)) :=
  let props1 := convert_dict_to_camel_case props in
  _dfs_configuration props1.

End Preprocess.

(** Modelled from the spec: the nested property lookup [get_value] of the
    sibling utility library's YAML-backed container, following the keys
    through nested mappings; [None] is a lookup that fails. *)
Fixpoint lookup (keys : list string) (v : yaml) : option yaml :=
  match keys with
  | [] => Some v
  | k :: ks =>
      match v with
      | YDict entries =>
          match dict_get k entries with
          | Some v' => lookup ks v'
          | None => None
          end
      | _ => None
      end
  end.

Definition get_value (props : option (list (string * yaml))) (keys : list string)
  : option yaml :=
  match props with
  | Some entries => lookup keys (YDict entries)
  | None => None
  end.

End Shadow.

Import Shadow.

(* ===================================================================== *)
(** ** Vocabulary of the specification *)
(* ===================================================================== *)

Module SpecTerms.

(** [sub] occurs in [s] as a substring. *)
Definition occurs (sub s : string) : Prop :=
  exists before after, s = before ++ sub ++ after.

(** [s] holds the character [c]. *)
Fixpoint has_char (c : ascii) (s : string) : bool :=
  match s with
  | EmptyString => false
  | String c' r => Ascii.eqb c' c || has_char c r
  end.

(** A segment of a machine-type identifier: no hyphen inside. *)
Definition segment (s : string) : Prop := has_char "-" s = false.

(** [c] is the ladder entry the specification selects for [n]: the
    smallest entry that is at least [n], or the maximum 96 when [n]
    exceeds every entry. *)
Definition ladder_choice (n c : Z) : Prop :=
  (In c dataproc_n1_cores /\ n <= c
   /\ forall d, In d dataproc_n1_cores -> n <= d -> c <= d)
  \/ ((forall d, In d dataproc_n1_cores -> d < n) /\ c = 96).

Fixpoint all_chars (p : ascii -> bool) (s : string) : bool :=
  match s with
  | EmptyString => true
  | String c r => p c && all_chars p r
  end.

(** A reading in the sense of the pattern: one or more digits, one or more
    white-space characters, the literal [MiB]. *)
Definition reading_of (digits : string) (text : string) : Prop :=
  digits <> "" /\ all_chars is_digit digits = true
  /\ exists blanks, blanks <> "" /\ all_chars is_space blanks = true
                    /\ occurs (digits ++ blanks ++ "MiB") text.

(** The specification's count for the GPU-memory response, word for word:
    the number of lines that match the pattern. *)
Definition count_matching_lines (text : string) : Z :=
  Z.of_nat (List.length
              (filter (fun line => match findall line with [] => false | _ => true end)
                      (splitlines text))).

(** The values of the matched readings, in order. *)
Definition readings (text : string) : list Z :=
  map (fun groups => match parse_int (fst groups) with Some n => n | None => 0 end)
      (findall text).

(** The mapping-valued entries of a document in depth-first pre-order,
    descending through mappings only. *)
Fixpoint submappings (v : yaml) : list (string * yaml) :=
  match v with
  | YDict entries =>
      (fix items (l : list (string * yaml)) : list (string * yaml) :=
         match l with
         | [] => []
         | (key, value) :: rest =>
             match value with
             | YDict _ => (key, value) :: (submappings value ++ items rest)%list
             | _ => items rest
             end
         end) entries
  | _ => []
  end.

(** The specification's re-rooting target, word for word: the first
    sub-mapping keyed [config] or [clusterConfig] in depth-first order. *)
Definition first_config_submapping (props : list (string * yaml)) : option yaml :=
  match List.find (fun kv => is_config_key (fst kv)) (submappings (YDict props)) with
  | Some (_, v) => Some v
  | None => None
  end.

(** A document holds, at some depth of mappings nested directly in
    mappings, a mapping stored under the key [config] or [clusterConfig]. *)
Inductive contains_config : yaml -> Prop :=
| config_here (entries : list (string * yaml)) (k : string) (d : list (string * yaml)) :
    In (k, YDict d) entries -> is_config_key k = true ->
    contains_config (YDict entries)
| config_below (entries : list (string * yaml)) (k : string) (v : yaml) :
    In (k, v) entries -> contains_config v ->
    contains_config (YDict entries).

(** A document holds such a mapping anywhere inside it, below mappings and
    below the items of sequences alike. *)
Inductive holds_config : yaml -> Prop :=
| held_here (entries : list (string * yaml)) (k : string) (d : list (string * yaml)) :
    In (k, YDict d) entries -> is_config_key k = true ->
    holds_config (YDict entries)
| held_below (entries : list (string * yaml)) (k : string) (v : yaml) :
    In (k, v) entries -> holds_config v ->
    holds_config (YDict entries)
| held_in_item (items : list yaml) (v : yaml) :
    In v items -> holds_config v ->
    holds_config (YList items).

(** *** The incompatibility report *)

(** The machine-type criterion of [c], when supplied and violated, can be
    converted: [map_to_closest_supported_match] returns on it. *)
Definition convertible (c : criteria) : Prop :=
  forall m, machineType c = Some m ->
            is_machine_compatible_for_gpu m = false ->
            returns (map_to_closest_supported_match m) = true.

Definition image_violated (c : criteria) : Prop :=
  exists v, imageVersion c = Some v /\ startswith v "1.5" = true.

Definition machine_violated (c : criteria) : Prop :=
  exists m, machineType c = Some m /\ is_machine_compatible_for_gpu m = false.

Definition ssds_violated (c : criteria) : Prop :=
  workerLocalSSDs c = Some 0.

(** The entry of [key] in the report [r], with its comment. *)
Definition flagged (r : report) (key : string) (suggested : value) (comment : string)
  : Prop :=
  dict_get key r = Some suggested
  /\ exists cm, dict_get "comments" r = Some (VComments cm)
                /\ dict_get key cm = Some comment.

Definition report_describes (c : criteria) (r : report) : Prop :=
  (dict_get "imageVersion" r <> None <-> image_violated c)
  /\ (forall v, imageVersion c = Some v -> startswith v "1.5" = true ->
                flagged r "imageVersion" (VStr "2.0+") (image_comment v))
  /\ (dict_get "machineType" r <> None <-> machine_violated c)
  /\ (forall m, machineType c = Some m -> is_machine_compatible_for_gpu m = false ->
                exists t, map_to_closest_supported_match m = Ret t
                          /\ flagged r "machineType" (VStr t) (machine_comment m t))
  /\ (dict_get "workerLocalSSDs" r <> None <-> ssds_violated c)
  /\ (ssds_violated c -> flagged r "workerLocalSSDs" (VInt 1) ssd_comment)
  /\ (~ image_violated c -> ~ machine_violated c -> ~ ssds_violated c -> r = []).

(** *** Errors handed to the failure handler *)

Definition uri_error (uri : string) : exn :=
  ValueError ("Unable to parse machine type from machine type URI: " ++ uri).

Definition cpu_info_headline : msg_arg := Msg (Some "Failed while processing CPU info").

Definition memory_error (text : string) : exn :=
  ValueError ("Unrecognized GPU memory output format: " ++ text).

(** The [k]-th segment of a URI counted from its end, the last being 0. *)
Definition segment_from_last (uri : string) (k : nat) : option string :=
  nth_error (rev (split "/" uri)) k.

Definition reading_value (g : string * string) : Z :=
  match parse_int (fst g) with Some n => n | None => 0 end.

Definition config_entry (kv : string * yaml) : bool := is_config_key (fst kv).

Definition reroot (found : option (string * yaml)) : option (list (string * yaml)) :=
  match found with
  | Some (_, v) => Some [("config", v)]
  | None => None
  end.

End SpecTerms.

Import SpecTerms.

(* ===================================================================== *)
(** ** Concrete runners, processes and documents *)
(* ===================================================================== *)

Module Scenarios.

(** A process that fails with exit code 1 after printing some text. *)
Definition failing_process (cmd : string) : CompletedProcess :=
  {| args := cmd; returncode := 1; stdout := Text "partial output";
     stderr := Text "No such object" |}.

(** The runner as constructed: nothing installed as failure handler. *)
Definition default_runner : CMDRunner := {| debug := false; fail_action := None |}.

(** A runner whose installed failure handler returns, so execution goes on. *)
Definition continuing_runner : CMDRunner :=
  {| debug := false; fail_action := Some (fun _ _ => Ret tt) |}.

(** A runner whose installed failure handler ends the process through the
    fatal-error path. *)
Definition terminating_runner : CMDRunner :=
  {| debug := false;
     fail_action :=
       Some (fun ex m =>
               match m with
               | Msg (Some headline) => bail headline ex
               | _ => bail "Error invoking cmd" ex
               end) |}.

(** A process that fails with exit code 1, prints a text, and writes to its
    standard error a byte that is no UTF-8. *)
Definition garbled_process (cmd : string) : CompletedProcess :=
  {| args := cmd; returncode := 1; stdout := Text "partial output";
     stderr :=
       Undecodable "'utf-8' codec can't decode byte 0xff in position 0: invalid start byte" |}.

(** A process that exits with 0 and prints [text]. *)
Definition printing_process (text : string) (cmd : string) : CompletedProcess :=
  {| args := cmd; returncode := 0; stdout := Text text; stderr := Text "" |}.

Definition sample_uri : string :=
  "https://www.googleapis.com/compute/v1/projects/p/zones/us-central1-a/machineTypes/n1-standard-8".

Definition regional_uri : string :=
  "https://www.googleapis.com/compute/v1/projects/p/regions/us-central1/instanceTemplates/n1-standard-8".

(** A response with one warning line and two readings. *)
Definition sample_memory_response : string :=
  "Warning: Permanently added 'compute.1234' (ED25519) to the list of known hosts."
  ++ nl ++ "15109 MiB" ++ nl ++ "15109 MiB" ++ nl.

(** Two response lines: a known device, then one that is not recognised. *)
Definition two_device_response : string :=
  "Tesla T4" ++ nl ++ "Unknown accelerator" ++ nl.

(** A captured description that wraps the configuration two levels deep. *)
Definition captured_document : list (string * yaml) :=
  [("kind", YStr "dataproc");
   ("cluster",
    YDict [("clusterName", YStr "demo");
           ("labels", YDict [("team", YStr "etl")]);
           ("clusterConfig",
            YDict [("workerConfig",
                    YDict [("numInstances", YInt 2);
                           ("machineTypeUri", YStr "n1-standard-8")])])])].

(** A captured description that lists its clusters in a sequence. *)
Definition listed_document : list (string * yaml) :=
  [("kind", YStr "dataproc");
   ("clusters",
    YList [YDict [("clusterName", YStr "demo");
                  ("config",
                   YDict [("workerConfig", YDict [("numInstances", YInt 2)])])]])].

(** A key conversion on a document whose keys are in camel case already. *)
Definition keys_kept (doc : list (string * yaml)) : list (string * yaml) := doc.

End Scenarios.

Import Scenarios.

(* ===================================================================== *)
(** ** Failures with missing keys *)
(* ===================================================================== *)

Module Failures.

(** What ends a call that touches a dictionary: an exception of the classes
    above, a [KeyError], or the fatal-error path. *)
Inductive failure : Type :=
| Py (e : exn)
| KeyError (key : string)
| Fatal (headline : string) (cause : exn).

Definition result (A : Type) : Type := (failure + A)%type.


Definition and_then {A B : Type} (c : result A) (k : A -> result B) : result B :=
  match c with
  | inr a => k a
  | inl f => inl f
  end.

End Failures.

Import Failures.

Notation "x <~ c ;; k" := (and_then c (fun x => k))
  (at level 61, c at next level, right associativity).

(* ===================================================================== *)
(** ** Environment and SDK validation *)
(* ===================================================================== *)

Module Sdk.

Definition tool_list : list string := ["gcloud"; "gsutil"].

Definition missing_tool (tool : string) : exn :=
  ValueError ("Tool " ++ tool ++ " is not in installed or not in the PATH environment").

Definition region_message : string :=
  "The required property [region] is not currently set." ++ nl ++ nl
  ++ "                         " ++ tab
  ++ "It can be set on a per-command basis by re-running your command with the [--region] flag."
  ++ nl ++ nl
  ++ "                         " ++ tab
  ++ "Or it can be set temporarily by the environment variable [CLOUDSDK_DATAPROC_REGION]".

Section Environment.

(** [is_system_tool] of the sibling utility library, and [os.getenv]. *)
Variable is_system_tool : string -> bool.
Variable getenv : string -> option string.

(** The [for] loop of [validate_dataproc_sdk]. *)
Fixpoint check_tools (tools : list string) : outcome unit :=
  match tools with
  | [] => Ret tt
  | tool :: rest =>
      if negb (is_system_tool tool) then Raise (missing_tool tool)
      else check_tools rest
  end.

(** [except ValueError as err: bail(...)]; other exceptions pass. *)
Definition validate_dataproc_sdk : outcome unit :=
  match check_tools tool_list with
  | Raise (ValueError msg) => bail "gcloud SDK check failed" (ValueError msg)
  | other => other
  end.

Definition get_default_region : option string :=
  getenv "CLOUDSDK_DATAPROC_REGION".

Definition validate_region (region : option string) : outcome unit :=
  match region with
  | None => bail "Invalid arguments for region" (ValueError region_message)
  | Some _ => Ret tt
  end.

End Environment.

End Sdk.

Import Sdk.

(* ===================================================================== *)
(** ** The storage commands of the command runner *)
(* ===================================================================== *)

Module Storage.

Section Tools.

Variable subprocess_run : string -> CompletedProcess.

(** The module constant [is_mac]. *)
Variable is_mac : bool.

Definition gsutil (self : CMDRunner) (cmd : string) (expected : Z)
    (msg_fail : option string) (fail_ok : bool)
  : outcome string * list string :=
  let gsutil_cmd := "gsutil " ++ cmd in
  run subprocess_run self gsutil_cmd expected fail_ok msg_fail.

(** The three commands below drop or pass on what [gsutil] returns; the
    records sent to the logger are left out. *)
Definition gcloud_rm (self : CMDRunner) (remote_path : string) (is_dir : bool)
    (fail_ok : bool) : outcome unit :=
  let recurse := if is_dir then "-r" else "" in
  let multi_threaded := if negb is_mac then "-m" else "" in
  let rm_cmd := multi_threaded ++ " rm -f " ++ recurse ++ " " ++ remote_path in
  _ <- fst (gsutil self rm_cmd 0 None fail_ok) ;;
  Ret tt.

Definition gcloud_cp (self : CMDRunner) (src_path dst_path : string)
    (overwrite is_dir fail_ok : bool) : outcome unit :=
  let cp_cmd :=
    (if negb is_mac then "-m" else "") ++ " cp "
    ++ (if overwrite then "" else "-n") ++ " "
    ++ (if is_dir then "-r" else "") ++ " "
    ++ src_path ++ " " ++ dst_path in
  _ <- fst (gsutil self cp_cmd 0 None fail_ok) ;;
  Ret tt.

Definition gcloud_cat (self : CMDRunner) (remote_path : string)
    (msg_fail : option string) (fail_ok : bool) : outcome string :=
  let cat_cmd := "cat " ++ remote_path in
  fst (gsutil self cat_cmd 0 msg_fail fail_ok).

End Tools.

End Storage.

Import Storage.

(* ===================================================================== *)
(** ** Node facts of the live container *)
(* ===================================================================== *)

Module Nodes.

(** [_get_machine_info_for_node] from the point where the machine-type URI
    of the node is known. *)
Definition machine_info_of_uri (cli : CMDRunner) (type_uri : string)
  : outcome (string * string * string) :=
  decoded <- __decode_machine_type_uri cli type_uri ;;
  let zone := fst decoded in
  let machine_type := snd decoded in
  let zone_parts := split "-" zone in
  p0 <- index zone_parts 0 ;;
  p1 <- index zone_parts 1 ;;
  let region := p0 ++ "-" ++ p1 in
  Ret (region, zone, machine_type).

(** [s.rindex(c)] for a one-character [c]: the highest index, or nothing
    where CPython raises [ValueError]. *)
Fixpoint rindex (sep : ascii) (s : string) : option nat :=
  match s with
  | EmptyString => None
  | String c r =>
      match rindex sep r with
      | Some i => Some (S i)
      | None => if Ascii.eqb c sep then Some O else None
      end
  end.

(** [get_zone] from the point where [zoneUri] is known:
    [zoneuri[zoneuri.rindex("/") + 1:]]. *)
Definition zone_of_uri (zoneuri : string) : outcome string :=
  match rindex "/" zoneuri with
  | Some i => Ret (drop (i + 1) zoneuri)
  | None => Raise (ValueError "substring not found")
  end.

(** Modelled from the spec: [get_value_silent] of the sibling utility
    library's container, the nested lookup that answers [None] where a key
    is missing. *)
Definition get_value_silent (props : option (list (string * yaml)))
    (keys : list string) : option yaml :=
  get_value props keys.

(** [int(v)] on a loaded value. *)
Definition int_of_yaml (v : yaml) : outcome Z :=
  match v with
  | YInt n => Ret n
  | YBool b => Ret (if b then 1 else 0)
  | YStr s => int_ s
  | YNull => Raise (TypeError "int() argument must be a string, a bytes-like object or a real number, not 'NoneType'")
  | YList _ => Raise (TypeError "int() argument must be a string, a bytes-like object or a real number, not 'list'")
  | YDict _ => Raise (TypeError "int() argument must be a string, a bytes-like object or a real number, not 'dict'")
  end.

(** A loaded value that is Python's [None]. *)
Definition is_none (v : option yaml) : bool :=
  match v with
  | None | Some YNull => true
  | Some _ => false
  end.

Definition __get_local_ssds_for_node (props : option (list (string * yaml)))
    (node_type : string) : outcome Z :=
  let ssds_count :=
    get_value_silent props ["config"; node_type ++ "Config"; "diskConfig"; "numLocalSsds"] in
  if is_none ssds_count then Ret 0
  else match ssds_count with
       | Some v => int_of_yaml v
       | None => Ret 0
       end.

Definition __get_number_instances (props : option (list (string * yaml)))
    (node_type : string) : outcome Z :=
  let res := get_value_silent props ["config"; node_type ++ "Config"; "numInstances"] in
  if is_none res then Ret 1
  else match res with
       | Some v => int_of_yaml v
       | None => Ret 1
       end.

Definition get_master_vm_instances (props : option (list (string * yaml))) : outcome Z :=
  __get_number_instances props "master".

Definition get_worker_vm_instances (props : option (list (string * yaml))) : outcome Z :=
  __get_number_instances props "worker".

Definition get_master_local_ssds (props : option (list (string * yaml))) : outcome Z :=
  __get_local_ssds_for_node props "master".

Definition get_worker_local_ssds (props : option (list (string * yaml))) : outcome Z :=
  __get_local_ssds_for_node props "worker".

(** [convert_worker_machine_if_not_supported] from the point where the
    worker machine type is known. *)
Definition convert_worker_machine_if_not_supported (worker_machine : string)
  : outcome report :=
  get_incompatible_criteria
    {| imageVersion := None; machineType := Some worker_machine;
       workerLocalSSDs := None |}.

(** [check_all_incompatibilities] from the point where the worker machine
    type and the image version are known. *)
Definition check_all_incompatibilities (props : option (list (string * yaml)))
    (worker_machine image_version : string) : outcome report :=
  local_ssds <- get_worker_local_ssds props ;;
  get_incompatible_criteria
    {| imageVersion := Some image_version; machineType := Some worker_machine;
       workerLocalSSDs := Some local_ssds |}.



(** [s.replace(old, new, 1)]: the first occurrence only. *)
Fixpoint replace_first (old new s : string) : string :=
  if startswith s old then new ++ drop (String.length old) s
  else match s with
       | EmptyString => EmptyString
       | String c r => String c (replace_first old new r)
       end.

(** The [for] loop of [filter_spark_properties], which fills [new_dict]. *)
Fixpoint filter_loop {V : Type} (items : list (string * V)) (new_dict : list (string * V))
  : list (string * V) :=
  match items with
  | [] => new_dict
  | (key, value) :: rest =>
      if startswith key "spark:"
      then filter_loop rest (dict_set (replace_first "spark:" "" key) value new_dict)
      else filter_loop rest new_dict
  end.

Definition filter_spark_properties {V : Type} (original_dict : list (string * V))
  : list (string * V) :=
  filter_loop original_dict [].

End Nodes.

Import Nodes.

(* ===================================================================== *)
(** ** The mutators of the shadow container *)
(* ===================================================================== *)

Module Offline.

(** [d[k]] on a loaded value. *)
Definition subscript (v : yaml) (k : string) : result yaml :=
  match v with
  | YDict entries =>
      match dict_get k entries with
      | Some v' => inr v'
      | None => inl (KeyError k)
      end
  | YList _ => inl (Py (TypeError "list indices must be integers or slices, not str"))
  | YStr _ => inl (Py (TypeError "string indices must be integers, not 'str'"))
  | _ => inl (Py (TypeError "object is not subscriptable"))
  end.

(** [d[k] = x] on a loaded value; the result is the value after the
    assignment. *)
Definition assign (v : yaml) (k : string) (x : yaml) : result yaml :=
  match v with
  | YDict entries => inr (YDict (dict_set k x entries))
  | YList _ => inl (Py (TypeError "list indices must be integers or slices, not str"))
  | _ => inl (Py (TypeError "object does not support item assignment"))
  end.

(** [self.props['config'][node_prefix_key][field] = x]; the result is
    [self.props] after the assignment. *)
Definition set_container_field (props : option (list (string * yaml)))
    (node_type field : string) (x : string) : result (list (string * yaml)) :=
  let node_prefix_key := node_type ++ "Config" in
  match props with
  | None => inl (Py (TypeError "'NoneType' object is not subscriptable"))
  | Some entries =>
      config <~ subscript (YDict entries) "config" ;;
      node <~ subscript config node_prefix_key ;;
      node' <~ assign node field (YStr x) ;;
      match config with
      | YDict centries =>
          inr (dict_set "config" (YDict (dict_set node_prefix_key node' centries)) entries)
      | _ => inl (Py (TypeError "object is not subscriptable"))
      end
  end.

Definition set_container_region (props : option (list (string * yaml)))
    (node_type region : string) : result (list (string * yaml)) :=
  set_container_field props node_type "region" region.

Definition set_container_zone (props : option (list (string * yaml)))
    (node_type zone : string) : result (list (string * yaml)) :=
  set_container_field props node_type "zone" zone.

(** [_get_machine_info_for_node] of the shadow container; [None] when one of
    the three lookups fails. *)
Definition _get_machine_info_for_node (props : option (list (string * yaml)))
    (node_type : string) : option (yaml * yaml * yaml) :=
  let node_prefix_key := node_type ++ "Config" in
  match get_value props ["config"; node_prefix_key; "machineTypeUri"] with
  | Some machine_type =>
      match get_value props ["config"; node_prefix_key; "zone"] with
      | Some zone =>
          match get_value props ["config"; node_prefix_key; "region"] with
          | Some region => Some (region, zone, machine_type)
          | None => None
          end
      | None => None
      end
  | None => None
  end.

End Offline.

Import Offline.

(* ===================================================================== *)
(** ** Further vocabulary *)
(* ===================================================================== *)

Module Terms.

(** Which criteria of a call are violated. *)
Definition flag_image (c : criteria) : bool :=
  match imageVersion c with
  | Some v => startswith v "1.5"
  | None => false
  end.

Definition flag_machine (c : criteria) : bool :=
  match machineType c with
  | Some m => negb (is_machine_compatible_for_gpu m)
  | None => false
  end.

Definition flag_ssds (c : criteria) : bool :=
  match workerLocalSSDs c with
  | Some n => n =? 0
  | None => false
  end.

(** The names of the violated criteria, in the order of the checks. *)
Definition flagged_keys (c : criteria) : list string :=
  ((if flag_image c then ["imageVersion"] else [])
   ++ (if flag_machine c then ["machineType"] else [])
   ++ (if flag_ssds c then ["workerLocalSSDs"] else []))%list.

(** The machine type suggested for the machine type of [c]. *)
Definition converted_type (c : criteria) : string :=
  match machineType c with
  | Some m =>
      match map_to_closest_supported_match m with
      | Ret t => t
      | _ => ""
      end
  | None => ""
  end.

(** The report in closed form: the entries of the violated criteria in the
    order of the checks, then their comments under [comments]. *)
Definition expected_entries (c : criteria) : report :=
  ((if flag_image c then [("imageVersion", VStr "2.0+")] else [])
   ++ (if flag_machine c then [("machineType", VStr (converted_type c))] else [])
   ++ (if flag_ssds c then [("workerLocalSSDs", VInt 1)] else []))%list.

Definition expected_comments (c : criteria) : list (string * string) :=
  ((if flag_image c
    then [("imageVersion",
           image_comment (match imageVersion c with Some v => v | None => "" end))]
    else [])
   ++ (if flag_machine c
       then [("machineType",
              machine_comment (match machineType c with Some m => m | None => "" end)
                (converted_type c))]
       else [])
   ++ (if flag_ssds c then [("workerLocalSSDs", ssd_comment)] else []))%list.

Definition expected_report (c : criteria) : report :=
  match expected_comments c with
  | [] => expected_entries c
  | cm => (expected_entries c ++ [("comments", VComments cm)])%list
  end.

(** The criteria of a call after its report has been followed: every
    suggested value takes the place of the value it was suggested for. *)
Definition apply_suggestions (c : criteria) (r : report) : criteria :=
  {| imageVersion :=
       match dict_get "imageVersion" r with
       | Some (VStr s) => Some s
       | _ => imageVersion c
       end;
     machineType :=
       match dict_get "machineType" r with
       | Some (VStr s) => Some s
       | _ => machineType c
       end;
     workerLocalSSDs :=
       match dict_get "workerLocalSSDs" r with
       | Some (VInt n) => Some n
       | _ => workerLocalSSDs c
       end |}.

(** The exception that [_check_subprocess_result] raises and catches for a
    command [cmd_args] that ended with an unexpected exit code and the text
    [err] on its standard error. *)
Definition cmd_error (cmd_args err : string) : exn :=
  Exception_
    ("Error invoking CMD <" ++ cmd_args ++ ">: "
     ++ (if 0 <? Z.of_nat (List.length (prefix_lines err))
         then nl ++ join nl (prefix_lines err) else "")).

(** A response of the memory query in its plain form: one reading per
    line, each a number, a blank and [MiB]. *)
Definition memory_lines (sizes : list string) : string :=
  join nl (map (fun d => d ++ " MiB") sizes).

(** A decimal numeral: digits only, at least one. *)
Definition numeral (d : string) : Prop :=
  d <> "" /\ all_chars is_digit d = true.

(** The shell command of each storage operation. *)
Definition rm_command (is_mac is_dir : bool) (remote_path : string) : string :=
  "gsutil " ++ (if is_mac then "" else "-m") ++ " rm -f "
  ++ (if is_dir then "-r" else "") ++ " " ++ remote_path.

Definition cp_command (is_mac overwrite is_dir : bool) (src_path dst_path : string)
  : string :=
  "gsutil " ++ (if is_mac then "" else "-m") ++ " cp "
  ++ (if overwrite then "" else "-n") ++ " " ++ (if is_dir then "-r" else "") ++ " "
  ++ src_path ++ " " ++ dst_path.

End Terms.

Import Terms.

(* ===================================================================== *)
(** ** Further documents *)
(* ===================================================================== *)

Module Documents.

(** A re-rooted capture whose worker node has a machine type but neither a
    zone nor a region. *)
Definition bare_capture : list (string * yaml) :=
  [("config",
    YDict [("masterConfig", YDict [("machineTypeUri", YStr "n1-standard-4")]);
           ("workerConfig",
            YDict [("numInstances", YInt 2);
                   ("machineTypeUri", YStr "n1-standard-8")])])].

End Documents.

Import Documents.

(** One conjunct of [report_describes] once the criteria are fixed. *)
Ltac report_case :=
  solve
    [ discriminate
    | intros; exfalso; congruence
    | intros [x [H1 H2]]; congruence
    | intros [= ->]; congruence
    | intros; eexists; split; [reflexivity | reflexivity]
    | intros _; eexists; split; [reflexivity | assumption]
    | intros H1 H2 H3; exfalso; (apply H1 + apply H2 + apply H3);
      try reflexivity; eexists; split; [reflexivity | assumption]
    | intros;
      match goal with H : Some _ = Some _ |- _ => injection H as <- end;
      eexists; split; reflexivity ].

(* ===================================================================== *)
(** ** Facts about the string primitives *)
(* ===================================================================== *)

Section StringFacts.

Lemma append_empty_r (s : string) : s ++ "" = s.
Proof. induction s as [|c r IH]; simpl; [reflexivity | now rewrite IH]. Qed.

Lemma append_assoc (a b c : string) : (a ++ b) ++ c = a ++ b ++ c.
Proof. induction a as [|x r IH]; simpl; [reflexivity | now rewrite IH]. Qed.

Lemma startswith_iff (s p : string) :
  startswith s p = true <-> exists r, s = p ++ r.
Proof.
  revert s. induction p as [|pc pr IH]; intros s; simpl.
  - split; [intros _; now exists s | reflexivity].
  - destruct s as [|sc sr].
    + split; [discriminate | intros [r Hr]; discriminate].
    + rewrite andb_true_iff, Ascii.eqb_eq, IH. split.
      * intros [-> [r ->]]. now exists r.
      * intros [r Hr]. injection Hr as -> ->. split; [reflexivity | now exists r].
Qed.

Lemma find_from_lower (s sub : string) (i : Z) :
  0 <= i -> find_from i s sub = -1 \/ i <= find_from i s sub.
Proof.
  revert i. induction s as [|c r IH]; intros i Hi; simpl.
  - destruct (startswith "" sub); [right; lia | now left].
  - destruct (startswith (String c r) sub); [right; lia |].
    destruct (IH (i + 1)) as [H | H]; [lia | now left | right; lia].
Qed.

Lemma find_from_found (s sub : string) (i : Z) :
  0 <= i -> (find_from i s sub <> -1 <-> occurs sub s).
Proof.
  revert i. induction s as [|c r IH]; intros i Hi; simpl.
  - destruct (startswith "" sub) eqn:E.
    + split; [intros _ | lia].
      apply startswith_iff in E as [t Ht]. now exists "", t.
    + split; [congruence |]. intros [b [a Hba]].
      destruct b; simpl in Hba; [| discriminate].
      assert (startswith "" sub = true) by (apply startswith_iff; now exists a).
      congruence.
  - destruct (startswith (String c r) sub) eqn:E.
    + split; [intros _ | lia].
      apply startswith_iff in E as [t Ht]. now exists "", t.
    + rewrite (IH (i + 1)) by lia. split.
      * intros [b [a ->]]. now exists (String c b), a.
      * intros [b [a Hba]]. destruct b as [|bc br]; simpl in Hba.
        -- assert (startswith (String c r) sub = true)
             by (apply startswith_iff; now exists a).
           congruence.
        -- injection Hba as _ ->. now exists br, a.
Qed.

Lemma find_found (s sub : string) :
  negb (find s sub =? -1) = true <-> occurs sub s.
Proof.
  unfold find. rewrite negb_true_iff, Z.eqb_neq.
  apply find_from_found. lia.
Qed.

Lemma split_nonempty (sep : ascii) (s : string) : split sep s <> [].
Proof.
  induction s as [|c r IH]; simpl; [discriminate |].
  destruct (Ascii.eqb c sep); [discriminate |].
  destruct (split sep r); discriminate.
Qed.

Lemma split_segment (sep : ascii) (s : string) :
  has_char sep s = false -> split sep s = [s].
Proof.
  induction s as [|c r IH]; simpl; [reflexivity |].
  intros H. apply orb_false_iff in H as [Hc Hr].
  rewrite Hc, (IH Hr). reflexivity.
Qed.

Lemma split_append (sep : ascii) (a b : string) :
  has_char sep a = false ->
  split sep (a ++ String sep b) = a :: split sep b.
Proof.
  induction a as [|c r IH]; simpl.
  - intros _. now rewrite Ascii.eqb_refl.
  - intros H. apply orb_false_iff in H as [Hc Hr].
    rewrite Hc, (IH Hr). reflexivity.
Qed.

Lemma lower_append (a b : string) : lower (a ++ b) = lower a ++ lower b.
Proof.
  unfold lower. induction a as [|c r IH]; simpl; [reflexivity | now rewrite IH].
Qed.

End StringFacts.

(* ===================================================================== *)
(** ** GPU name recognition *)
(* ===================================================================== *)

Section GpuNames.

Lemma first_found_some (normalized : string) (names : list string) (g : string) :
  first_found normalized names = Some g <->
  exists before after,
    names = (before ++ g :: after)%list /\ occurs g normalized
    /\ forall h, In h before -> ~ occurs h normalized.
Proof.
  induction names as [|n rest IH]; simpl.
  - split; [discriminate |].
    intros (before & after & H & _). destruct before; discriminate.
  - destruct (negb (find normalized n =? -1)) eqn:E.
    + split.
      * intros [= <-]. exists [], rest. repeat split.
        -- now apply find_found.
        -- intros h [].
      * intros (before & after & H & Hg & Hb).
        destruct before as [|b bs]; simpl in H; injection H as <- Hrest.
        -- reflexivity.
        -- exfalso. apply (Hb n); [now left | now apply find_found].
    + rewrite IH. split.
      * intros (before & after & -> & Hg & Hb).
        exists (n :: before), after. repeat split; try assumption.
        intros h [<- | Hin]; [| now apply Hb].
        intros Ho. apply find_found in Ho. congruence.
      * intros (before & after & H & Hg & Hb).
        destruct before as [|b bs]; simpl in H; injection H as <- Hrest.
        -- apply find_found in Hg. congruence.
        -- exists bs, after. repeat split; try assumption.
           intros h Hin. apply Hb. now right.
Qed.

Lemma first_found_none (normalized : string) (names : list string) :
  first_found normalized names = None <->
  forall g, In g names -> ~ occurs g normalized.
Proof.
  induction names as [|n rest IH]; simpl.
  - split; [intros _ g [] | reflexivity].
  - destruct (negb (find normalized n =? -1)) eqn:E.
    + split; [discriminate |]. intros H. exfalso.
      apply (H n); [now left | now apply find_found].
    + rewrite IH. split.
      * intros H g [<- | Hin]; [| now apply H].
        intros Ho. apply find_found in Ho. congruence.
      * intros H g Hin. apply H. now right.
Qed.

Lemma upper_char_idem (c : ascii) : upper_char (upper_char c) = upper_char c.
Proof.
  destruct c as [[] [] [] [] [] [] [] []]; reflexivity.
Qed.

Lemma upper_idem (s : string) : upper (upper s) = upper s.
Proof.
  unfold upper. induction s as [|c r IH]; simpl; [reflexivity |].
  now rewrite upper_char_idem, IH.
Qed.

End GpuNames.

(** C8. [parse_supported_gpu] uppercases its input and returns the first
    name, in the order T4, V100, K80, A100, P100, that occurs in the
    uppercased text as a substring; it returns nothing exactly when none of
    the five occurs there.  The answer depends on the input only up to
    letter case.  "Tesla T4" gives T4 and "NVIDIA A100-SXM4-40GB" gives
    A100. *)
Theorem parse_supported_gpu_first_match :
  supported_list = ["T4"; "V100"; "K80"; "A100"; "P100"]
  /\ (forall value g,
        parse_supported_gpu value = Some g <->
        exists before after,
          supported_list = (before ++ g :: after)%list
          /\ occurs g (upper value)
          /\ forall h, In h before -> ~ occurs h (upper value))
  /\ (forall value,
        parse_supported_gpu value = None <->
        forall g, In g supported_list -> ~ occurs g (upper value))
  /\ (forall value, parse_supported_gpu (upper value) = parse_supported_gpu value)
  /\ (forall value value',
        upper value = upper value' ->
        parse_supported_gpu value = parse_supported_gpu value')
  /\ parse_supported_gpu "Tesla T4" = Some "T4"
  /\ parse_supported_gpu "tesla t4" = Some "T4"
  /\ parse_supported_gpu "NVIDIA A100-SXM4-40GB" = Some "A100"
  /\ parse_supported_gpu "GeForce RTX 3090" = None.
Proof.
  split; [reflexivity |].
  split; [intros value g; apply first_found_some |].
  split; [intros value; apply first_found_none |].
  split; [intros value; unfold parse_supported_gpu; now rewrite upper_idem |].
  split; [intros value value' H; unfold parse_supported_gpu; now rewrite H |].
  repeat split; vm_compute; reflexivity.
Qed.

Lemma parse_supported_gpu_first_match_witness :
  parse_supported_gpu "nvidia tesla v100-sxm2-16gb"
  = parse_supported_gpu "NVIDIA Tesla V100-SXM2-16GB".
Proof.
  apply (proj1 (proj2 (proj2 (proj2 (proj2 parse_supported_gpu_first_match))))).
  reflexivity.
Defined.

(* ===================================================================== *)
(** ** The closest supported machine type *)
(* ===================================================================== *)

Section ClosestMachine.

Lemma get_core_choice (n : Z) : ladder_choice n (get_core n).
Proof.
  unfold ladder_choice, get_core, dataproc_n1_cores, first_at_least.
  repeat match goal with
         | |- context [?c >=? n] =>
             destruct (Z.geb_spec c n)
         end; simpl.
  all: try (left; split; [tauto | split; [lia |]];
            intros d Hd Hn; simpl in Hd; intuition lia).
  right. split; [| reflexivity].
  intros d Hd. simpl in Hd. intuition lia.
Qed.

Lemma get_core_in_ladder (n : Z) : In (get_core n) dataproc_n1_cores.
Proof.
  unfold get_core, dataproc_n1_cores, first_at_least.
  repeat match goal with
         | |- context [?c >=? n] => destruct (c >=? n)
         end; simpl; tauto.
Qed.

Lemma index_last_snoc {A : Type} (l : list A) (x : A) :
  index_last (l ++ [x])%list = Ret x.
Proof. unfold index_last. now rewrite rev_app_distr. Qed.

Lemma split_three (family tier count : string) :
  segment family -> segment tier -> segment count ->
  split "-" (family ++ "-" ++ tier ++ "-" ++ count) = [family; tier; count].
Proof.
  unfold segment. intros Hf Ht Hc. simpl.
  rewrite (split_append _ _ _ Hf), (split_append _ _ _ Ht), (split_segment _ _ Hc).
  reflexivity.
Qed.

Lemma map_three (family tier count : string) (n : Z) :
  segment family -> segment tier -> segment count ->
  parse_int count = Some n ->
  map_to_closest_supported_match (family ++ "-" ++ tier ++ "-" ++ count)
  = Ret ("n1-" ++ tier ++ "-" ++ str_of_int (get_core n)).
Proof.
  intros Hf Ht Hc Hn. unfold map_to_closest_supported_match.
  rewrite (split_three _ _ _ Hf Ht Hc).
  change [family; tier; count] with ([family; tier] ++ [count])%list at 1.
  rewrite index_last_snoc. simpl. unfold int_. rewrite Hn. reflexivity.
Qed.

Lemma ladder_entry_facts (c : Z) :
  In c dataproc_n1_cores ->
  segment (str_of_int c) /\ parse_int (str_of_int c) = Some c /\ get_core c = c.
Proof.
  unfold dataproc_n1_cores. simpl.
  intros H. repeat destruct H as [<- | H]; try contradiction;
    repeat split; vm_compute; reflexivity.
Qed.

End ClosestMachine.

(** C1. For a machine-type identifier [family-tier-count] whose final
    segment parses as the integer [n], [map_to_closest_supported_match]
    returns [n1-tier-c] where [c] is the smallest entry of the ladder
    2, 4, 8, 16, 32, 64, 96 that is at least [n], or 96 when [n] exceeds
    every entry.  In particular n2-highmem-128 maps to n1-highmem-96,
    n2-standard-6 to n1-standard-8 and n2-standard-96 to n1-standard-96. *)
Theorem map_to_closest_supported_match_ladder :
  dataproc_n1_cores = [2; 4; 8; 16; 32; 64; 96]
  /\ (forall family tier count n,
        segment family -> segment tier -> segment count ->
        parse_int count = Some n ->
        exists c,
          map_to_closest_supported_match (family ++ "-" ++ tier ++ "-" ++ count)
          = Ret ("n1-" ++ tier ++ "-" ++ str_of_int c)
          /\ ladder_choice n c)
  /\ map_to_closest_supported_match "n2-highmem-128" = Ret "n1-highmem-96"
  /\ map_to_closest_supported_match "n2-standard-6" = Ret "n1-standard-8"
  /\ map_to_closest_supported_match "n2-standard-96" = Ret "n1-standard-96".
Proof.
  split; [reflexivity |].
  split.
  - intros family tier count n Hf Ht Hc Hn.
    exists (get_core n). split.
    + now apply map_three.
    + apply get_core_choice.
  - repeat split; vm_compute; reflexivity.
Qed.

Lemma map_to_closest_supported_match_ladder_witness :
  exists c,
    map_to_closest_supported_match ("n2" ++ "-" ++ "highmem" ++ "-" ++ "128")
    = Ret ("n1-" ++ "highmem" ++ "-" ++ str_of_int c)
    /\ ladder_choice 128 c.
Proof.
  apply (proj1 (proj2 map_to_closest_supported_match_ladder)
           "n2" "highmem" "128" 128); reflexivity.
Defined.

(** C10. For an identifier with exactly three hyphen-separated segments
    whose last segment is a numeral, the output of
    [map_to_closest_supported_match] satisfies
    [is_machine_compatible_for_gpu], and mapping the output again returns it
    unchanged. *)
Theorem map_to_closest_supported_match_idempotent
    (family tier count : string) (n : Z) :
  segment family -> segment tier -> segment count ->
  parse_int count = Some n ->
  exists out,
    map_to_closest_supported_match (family ++ "-" ++ tier ++ "-" ++ count) = Ret out
    /\ is_machine_compatible_for_gpu out = true
    /\ map_to_closest_supported_match out = Ret out.
Proof.
  intros Hf Ht Hc Hn.
  exists ("n1-" ++ tier ++ "-" ++ str_of_int (get_core n)).
  split; [now apply map_three |].
  destruct (ladder_entry_facts _ (get_core_in_ladder n)) as (Hs & Hp & Hg).
  split.
  - reflexivity.
  - change ("n1-" ++ tier ++ "-" ++ str_of_int (get_core n))
      with ("n1" ++ "-" ++ tier ++ "-" ++ str_of_int (get_core n)).
    rewrite (map_three "n1" tier _ (get_core n)); try assumption; try reflexivity.
    now rewrite Hg.
Qed.

Lemma map_to_closest_supported_match_idempotent_witness :
  exists out,
    map_to_closest_supported_match ("e2" ++ "-" ++ "highcpu" ++ "-" ++ "6") = Ret out
    /\ is_machine_compatible_for_gpu out = true
    /\ map_to_closest_supported_match out = Ret out.
Proof.
  apply (map_to_closest_supported_match_idempotent "e2" "highcpu" "6" 6);
    reflexivity.
Defined.

(* ===================================================================== *)
(** ** The incompatibility report *)
(* ===================================================================== *)

Opaque image_comment machine_comment ssd_comment startswith
  is_machine_compatible_for_gpu map_to_closest_supported_match.

(** The report on criteria whose machine type converts.  For a call in
    which the machine type, when it is supplied and does not start with
    "n1-", is one that [map_to_closest_supported_match] converts: a report is
    returned; the imageVersion entry (value "2.0+") is present iff the
    version starts with "1.5"; the machineType entry (value: the converted
    machine type) is present iff the machine type does not start,
    case-insensitively, with "n1-"; the workerLocalSSDs entry (value 1) is
    present iff the count is 0; each entry comes with its comment; the report
    is empty when every supplied criterion passes. *)
Theorem get_incompatible_criteria_report (c : criteria) :
  convertible c ->
  exists r, get_incompatible_criteria c = Ret r /\ report_describes c r.
Proof.
  destruct c as [iv mt ssd]. unfold convertible.
  cbn [imageVersion machineType workerLocalSSDs]. intros Hconv.
  assert (Hm : forall m, mt = Some m -> is_machine_compatible_for_gpu m = false ->
                         exists t, map_to_closest_supported_match m = Ret t).
  { intros m Hmt Hc. specialize (Hconv m Hmt Hc).
    destruct (map_to_closest_supported_match m) as [t | |]; try discriminate.
    now exists t. }
  clear Hconv.
  unfold get_incompatible_criteria, check_image, check_machine, check_ssds,
    report_describes, image_violated, machine_violated, ssds_violated, flagged.
  cbn [imageVersion machineType workerLocalSSDs].
  destruct iv as [v|]; [destruct (startswith v "1.5") eqn:Ev |];
    (destruct mt as [m|];
     [destruct (is_machine_compatible_for_gpu m) eqn:Em;
      [| destruct (Hm m eq_refl Em) as [t Ht]; rewrite Ht] |]);
    (destruct ssd as [n|]; [destruct (Z.eqb_spec n 0) as [-> | Hn] |]);
    clear Hm; cbn; eexists; (split; [reflexivity |]); cbn.
  all: repeat split.
  all: try report_case.
  all: intros x [= <-] Hx; eexists; split; [eassumption |];
    split; [reflexivity | eexists; split; reflexivity].
Qed.

Transparent image_comment machine_comment ssd_comment startswith
  is_machine_compatible_for_gpu map_to_closest_supported_match.

Lemma get_incompatible_criteria_report_witness :
  exists r,
    get_incompatible_criteria
      {| imageVersion := Some "1.5-debian10";
         machineType := Some "n2-standard-6";
         workerLocalSSDs := Some 0 |} = Ret r
    /\ report_describes
         {| imageVersion := Some "1.5-debian10";
            machineType := Some "n2-standard-6";
            workerLocalSSDs := Some 0 |} r.
Proof.
  apply get_incompatible_criteria_report.
  intros m [= <-] _. reflexivity.
Defined.

(** C2, the code at the failing input.  The machine type "e2-medium" does
    not start with "n1-", so the claim promises a report with a machineType
    entry; the code reaches [int("medium")] inside the conversion, the
    [ValueError] propagates and no report is returned at all. *)
Lemma get_incompatible_criteria_e2_medium :
  is_machine_compatible_for_gpu "e2-medium" = false
  /\ get_incompatible_criteria
       {| imageVersion := None; machineType := Some "e2-medium";
          workerLocalSSDs := None |}
     = Raise (ValueError "invalid literal for int() with base 10: 'medium'")
  /\ ~ (exists r,
          get_incompatible_criteria
            {| imageVersion := None; machineType := Some "e2-medium";
               workerLocalSSDs := None |} = Ret r)
  /\ get_incompatible_criteria
       {| imageVersion := Some "2.0-debian10"; machineType := Some "a2-highgpu-1g";
          workerLocalSSDs := Some 1 |}
     = Raise (ValueError "invalid literal for int() with base 10: '1g'").
Proof.
  split; [reflexivity |].
  split; [vm_compute; reflexivity |].
  split; [| vm_compute; reflexivity].
  intros [r Hr]. vm_compute in Hr. discriminate.
Qed.

Example get_incompatible_criteria_examples :
  get_incompatible_criteria
    {| imageVersion := Some "2.0-debian10"; machineType := None;
       workerLocalSSDs := None |} = Ret []
  /\ get_incompatible_criteria
       {| imageVersion := None; machineType := None;
          workerLocalSSDs := Some 1 |} = Ret []
  /\ get_incompatible_criteria
       {| imageVersion := None; machineType := Some "N1-standard-4";
          workerLocalSSDs := None |} = Ret []
  /\ get_incompatible_criteria
       {| imageVersion := Some "1.5-debian10"; machineType := Some "n2-standard-6";
          workerLocalSSDs := Some 0 |}
     = Ret [("imageVersion", VStr "2.0+");
            ("machineType", VStr "n1-standard-8");
            ("workerLocalSSDs", VInt 1);
            ("comments",
             VComments
               [("imageVersion", image_comment "1.5-debian10");
                ("machineType", machine_comment "n2-standard-6" "n1-standard-8");
                ("workerLocalSSDs", ssd_comment)])].
Proof. repeat split; vm_compute; reflexivity. Qed.

(* ===================================================================== *)
(** ** Command execution and the failure handler *)
(* ===================================================================== *)

Section Commands.

Variable subprocess_run : string -> CompletedProcess.

Lemma check_expected_code (self : CMDRunner) (c : CompletedProcess)
    (expected : Z) (msg_fail : option string) :
  returncode c = expected ->
  _check_subprocess_result self c expected msg_fail = Ret tt.
Proof.
  intros H. unfold _check_subprocess_result.
  now rewrite H, Z.eqb_refl.
Qed.

Lemma check_unexpected_code_default (self : CMDRunner) (c : CompletedProcess)
    (expected : Z) (msg_fail : option string) :
  returncode c <> expected ->
  fail_action self = None ->
  exists headline cause,
    _check_subprocess_result self c expected msg_fail = Bail headline cause
    /\ headline = (if truthy msg_fail
                   then match msg_fail with Some m => m | None => "" end
                   else "Error invoking cmd").
Proof.
  intros H Hf. unfold _check_subprocess_result.
  apply Z.eqb_neq in H. rewrite H, Hf. simpl.
  destruct (truthy msg_fail); eexists; eexists; split; reflexivity.
Qed.

Lemma check_unexpected_code_handler (self : CMDRunner) (c : CompletedProcess)
    (expected : Z) (msg_fail : option string) (h : handler) :
  returncode c <> expected ->
  fail_action self = Some h ->
  exists cause, _check_subprocess_result self c expected msg_fail = h cause (Msg msg_fail).
Proof.
  intros H Hf. unfold _check_subprocess_result.
  apply Z.eqb_neq in H. rewrite H, Hf. simpl.
  eexists; reflexivity.
Qed.

Lemma run_fail_ok_formula (self : CMDRunner) (cmd : string) (expected : Z)
    (msg_fail : option string) (out err : string) :
  stdout (subprocess_run cmd) = Text out ->
  stderr (subprocess_run cmd) = Text err ->
  run subprocess_run self cmd expected true msg_fail
  = (Ret out, if debug self then [debug_message cmd out err] else []).
Proof.
  intros Ho He. unfold run. cbn [negb]. now rewrite Ho, He.
Qed.

End Commands.

(** C6, amended.  [run] with [fail_ok = True] never looks at the exit code:
    for every command whose captured standard output and standard error
    decode as UTF-8, whatever the exit code and the expected code are and
    whatever handler is installed, it returns the text captured on standard
    output; the records sent to the logger do not mention the exit code
    either.  A process that exits with 1 still yields its output, where the
    same call without [fail_ok] ends the program. *)
Theorem run_fail_ok_returns_stdout :
  (forall subprocess_run self cmd expected msg_fail out err,
      stdout (subprocess_run cmd) = Text out ->
      stderr (subprocess_run cmd) = Text err ->
      run subprocess_run self cmd expected true msg_fail
      = (Ret out, if debug self then [debug_message cmd out err] else []))
  /\ run failing_process default_runner "gsutil cat gs://bucket/x" 0 true None
     = (Ret "partial output", [])
  /\ (exists cause,
         run failing_process default_runner "gsutil cat gs://bucket/x" 0 false None
         = (Bail "Error invoking cmd" cause, [])).
Proof.
  split; [intros; now apply run_fail_ok_formula |].
  split; [reflexivity |].
  eexists. vm_compute. reflexivity.
Qed.

Lemma run_fail_ok_returns_stdout_witness :
  run (printing_process "gs://bucket/x") continuing_runner "gsutil ls" 3 true None
  = (Ret "gs://bucket/x", []).
Proof.
  apply (proj1 run_fail_ok_returns_stdout (printing_process "gs://bucket/x")
           continuing_runner "gsutil ls" 3 None "gs://bucket/x" "");
    reflexivity.
Defined.

(** The claim C6 as stated fails on a command whose standard error is no
    UTF-8: with [fail_ok = True] the exit code is ignored, but the strict
    decoding of the captured streams raises [UnicodeDecodeError], and the
    text captured on standard output is not returned. *)
Lemma run_fail_ok_undecodable_stderr :
  stdout (garbled_process "gsutil cat gs://bucket/x") = Text "partial output"
  /\ run garbled_process default_runner "gsutil cat gs://bucket/x" 0 true None
     = (Raise (UnicodeDecodeError
                 "'utf-8' codec can't decode byte 0xff in position 0: invalid start byte"),
        []).
Proof. split; reflexivity. Qed.

(* ===================================================================== *)
(** ** Decoding a machine-type URI *)
(* ===================================================================== *)

Section DecodeUri.

Lemma last4_length {A : Type} (l : list A) : (List.length (last4 l) <= 4)%nat.
Proof. unfold last4. rewrite length_skipn. lia. Qed.

Lemma decode_layout (cli : CMDRunner) (uri z m : string) :
  last4 (split "/" uri) = ["zones"; z; "machineTypes"; m] ->
  __decode_machine_type_uri cli uri = Ret (z, m).
Proof.
  intros H. unfold __decode_machine_type_uri. rewrite H. reflexivity.
Qed.

Lemma decode_mismatch (cli : CMDRunner) (uri p0 p1 p2 p3 : string) :
  last4 (split "/" uri) = [p0; p1; p2; p3] ->
  p0 <> "zones" \/ p2 <> "machineTypes" ->
  __decode_machine_type_uri cli uri
  = (_ <- call_fail_action cli (uri_error uri) cpu_info_headline ;; Ret (p1, p3)).
Proof.
  intros H Hne. unfold __decode_machine_type_uri. rewrite H.
  cbn [index nth_error bind].
  destruct (String.eqb_spec p0 "zones") as [-> | H0]; cbn [negb bind].
  - cbn [index nth_error bind].
    destruct (String.eqb_spec p2 "machineTypes") as [-> | H2]; cbn [negb bind].
    + destruct Hne as [Hne | Hne]; now elim Hne.
    + reflexivity.
  - reflexivity.
Qed.

(** A normal return of the decoder: the layout matched, or an installed
    handler was handed the error and returned. *)
Lemma decode_returns (cli : CMDRunner) (uri z m : string) :
  __decode_machine_type_uri cli uri = Ret (z, m) ->
  last4 (split "/" uri) = ["zones"; z; "machineTypes"; m]
  \/ exists h p0 p2,
       fail_action cli = Some h
       /\ h (uri_error uri) cpu_info_headline = Ret tt
       /\ last4 (split "/" uri) = [p0; z; p2; m]
       /\ (p0 <> "zones" \/ p2 <> "machineTypes").
Proof.
  pose proof (last4_length (split "/" uri)) as Hlen.
  unfold __decode_machine_type_uri.
  destruct (last4 (split "/" uri)) as [|p0 [|p1 [|p2 [|p3 [|p4 rest]]]]];
    simpl in Hlen; try lia; cbn [index nth_error bind].
  - discriminate.
  - destruct (String.eqb p0 "zones"); cbn [negb bind index nth_error]; try discriminate.
    destruct (call_fail_action _ _ _); discriminate.
  - destruct (String.eqb p0 "zones"); cbn [negb bind index nth_error]; try discriminate.
    destruct (call_fail_action _ _ _); discriminate.
  - destruct (String.eqb p0 "zones"); cbn [negb bind index nth_error].
    + destruct (negb (String.eqb p2 "machineTypes")); cbn [bind index nth_error];
        try discriminate.
      destruct (call_fail_action _ _ _); discriminate.
    + destruct (call_fail_action _ _ _); discriminate.
  - assert (Hcall : forall v : string * string,
               (_ <- call_fail_action cli (uri_error uri) cpu_info_headline ;;
                Ret (p1, p3)) = Ret v ->
               exists h, fail_action cli = Some h
                         /\ h (uri_error uri) cpu_info_headline = Ret tt
                         /\ v = (p1, p3)).
    { intros v. unfold call_fail_action.
      destruct (fail_action cli) as [h|]; [| discriminate].
      destruct (h _ _) as [[] | |] eqn:Eh; try discriminate.
      intros [= <-]. now exists h. }
    destruct (String.eqb_spec p0 "zones") as [-> | H0]; cbn [negb bind index nth_error].
    + destruct (String.eqb_spec p2 "machineTypes") as [-> | H2];
        cbn [negb bind index nth_error].
      * intros [= -> ->]. now left.
      * intros Hr. apply Hcall in Hr as (h & Hf & Hh & [= -> ->]).
        right. exists h, "zones", p2. auto.
    + intros Hr. apply Hcall in Hr as (h & Hf & Hh & [= -> ->]).
      right. exists h, p0, p2. auto.
Qed.

End DecodeUri.

Lemma second_from_last_of_last4 {A : Type} (l : list A) (a b c d : A) :
  last4 l = [a; b; c; d] -> nth_error (rev l) 1 = Some c.
Proof.
  unfold last4. intros H.
  rewrite <- (firstn_skipn (List.length l - 4) l), H, rev_app_distr.
  reflexivity.
Qed.

(** C5, amended.  A command whose exit code is not the expected one is
    surfaced through the fatal-error path when no failure handler is
    installed, and is handed to the installed handler otherwise.  Decoding a
    machine-type URI whose last four segments do not match the layout hands
    a [ValueError] naming the URI to the installed failure handler; what
    follows is the handler's decision: no value is returned when it
    terminates, and when it returns the decoder goes on and returns the
    second and the fourth of the last four segments. *)
Theorem failure_follows_the_handler :
  (forall self c expected msg_fail,
      returncode c <> expected ->
      match fail_action self with
      | None =>
          exists headline cause,
            _check_subprocess_result self c expected msg_fail = Bail headline cause
      | Some h =>
          exists cause,
            _check_subprocess_result self c expected msg_fail = h cause (Msg msg_fail)
      end)
  /\ (forall cli h uri p0 p1 p2 p3,
         fail_action cli = Some h ->
         last4 (split "/" uri) = [p0; p1; p2; p3] ->
         p0 <> "zones" \/ p2 <> "machineTypes" ->
         __decode_machine_type_uri cli uri
         = (_ <- h (uri_error uri) cpu_info_headline ;; Ret (p1, p3))).
Proof.
  split.
  - intros self c expected msg_fail H.
    destruct (fail_action self) as [h|] eqn:Hf.
    + now apply check_unexpected_code_handler.
    + destruct (check_unexpected_code_default self c expected msg_fail H Hf)
        as (headline & cause & Hb & _).
      now exists headline, cause.
  - intros cli h uri p0 p1 p2 p3 Hf Hl Hne.
    rewrite (decode_mismatch cli uri p0 p1 p2 p3 Hl Hne).
    unfold call_fail_action. now rewrite Hf.
Qed.

Lemma failure_follows_the_handler_witness :
  (exists headline cause,
      _check_subprocess_result default_runner (failing_process "gsutil ls") 0 None
      = Bail headline cause)
  /\ __decode_machine_type_uri terminating_runner regional_uri
     = Bail "Failed while processing CPU info" (uri_error regional_uri)
  /\ __decode_machine_type_uri continuing_runner regional_uri
     = Ret ("us-central1", "n1-standard-8").
Proof.
  split; [| split].
  - apply (proj1 failure_follows_the_handler default_runner
             (failing_process "gsutil ls") 0 None).
    simpl. lia.
  - rewrite (proj2 failure_follows_the_handler terminating_runner _ regional_uri
               "regions" "us-central1" "instanceTemplates" "n1-standard-8" eq_refl).
    + reflexivity.
    + reflexivity.
    + left. discriminate.
  - rewrite (proj2 failure_follows_the_handler continuing_runner _ regional_uri
               "regions" "us-central1" "instanceTemplates" "n1-standard-8" eq_refl).
    + reflexivity.
    + reflexivity.
    + left. discriminate.
Defined.

(** The claim C5 as stated fails once a failure handler that returns is
    installed: the decoder is handed a URI whose last four segments are not
    [zones/<zone>/machineTypes/<type>] and still returns a zone and a machine
    type taken from it. *)
Lemma decode_returns_values_after_handler :
  last4 (split "/" regional_uri)
  = ["regions"; "us-central1"; "instanceTemplates"; "n1-standard-8"]
  /\ __decode_machine_type_uri continuing_runner regional_uri
     = Ret ("us-central1", "n1-standard-8").
Proof. split; vm_compute; reflexivity. Qed.

(** C7, amended.  A machine-type URI whose last four segments are [zones],
    a zone, [machineTypes] and a machine type decodes to exactly that zone
    and machine type, whatever handler is installed.  A URI whose
    second-from-last segment is not [machineTypes] is never decoded
    normally, except when an installed failure handler is handed the parsing
    error and returns. *)
Theorem decode_machine_type_uri_layout :
  (forall cli uri z m,
      last4 (split "/" uri) = ["zones"; z; "machineTypes"; m] ->
      __decode_machine_type_uri cli uri = Ret (z, m))
  /\ (forall cli,
         __decode_machine_type_uri cli sample_uri
         = Ret ("us-central1-a", "n1-standard-8"))
  /\ (forall cli uri z m,
         segment_from_last uri 1 <> Some "machineTypes" ->
         __decode_machine_type_uri cli uri = Ret (z, m) ->
         exists h, fail_action cli = Some h
                   /\ h (uri_error uri) cpu_info_headline = Ret tt).
Proof.
  split; [exact decode_layout |].
  split; [intros cli; now apply decode_layout |].
  intros cli uri z m Hseg Hret.
  destruct (decode_returns cli uri z m Hret) as [Hl | (h & p0 & p2 & Hf & Hh & _)].
  - elim Hseg. unfold segment_from_last.
    now rewrite (second_from_last_of_last4 _ _ _ _ _ Hl).
  - now exists h.
Qed.

Lemma decode_machine_type_uri_layout_witness :
  __decode_machine_type_uri default_runner "zones/europe-west4-b/machineTypes/n2-highmem-16"
  = Ret ("europe-west4-b", "n2-highmem-16")
  /\ exists h, fail_action continuing_runner = Some h
               /\ h (uri_error regional_uri) cpu_info_headline = Ret tt.
Proof.
  split.
  - apply (proj1 decode_machine_type_uri_layout). reflexivity.
  - apply (proj2 (proj2 decode_machine_type_uri_layout) continuing_runner regional_uri
             "us-central1" "n1-standard-8").
    + vm_compute. discriminate.
    + reflexivity.
Defined.

(** The claim C7 as stated fails.  Read to the letter, the third-from-last
    segment of the well-formed sample URI is its zone, not [machineTypes],
    and the URI decodes without error.  Read as the third of the last four
    segments, a URI that has something else in that place still decodes to a
    zone and a machine type once an installed failure handler returns. *)
Lemma decode_third_from_last :
  segment_from_last sample_uri 2 = Some "us-central1-a"
  /\ __decode_machine_type_uri default_runner sample_uri
     = Ret ("us-central1-a", "n1-standard-8")
  /\ segment_from_last regional_uri 1 = Some "instanceTemplates"
  /\ segment_from_last regional_uri 2 = Some "us-central1"
  /\ __decode_machine_type_uri continuing_runner regional_uri
     = Ret ("us-central1", "n1-standard-8").
Proof. repeat split; vm_compute; reflexivity. Qed.

(* ===================================================================== *)
(** ** The GPU memory response *)
(* ===================================================================== *)

Section GpuMemory.

Lemma span_split (p : ascii -> bool) (s a b : string) :
  span p s = (a, b) -> s = a ++ b /\ all_chars p a = true.
Proof.
  revert a b. induction s as [|c r IH]; simpl; intros a b.
  - intros [= <- <-]. now split.
  - destruct (p c) eqn:Ep.
    + destruct (span p r) as [a' b'] eqn:Es. intros [= <- <-].
      destruct (IH a' b' eq_refl) as [-> Ha]. simpl. now rewrite Ep, Ha.
    + intros [= <- <-]. now split.
Qed.

Lemma append_length (a b : string) :
  String.length (a ++ b) = (String.length a + String.length b)%nat.
Proof. induction a as [|c r IH]; simpl; [reflexivity | now rewrite IH]. Qed.

Lemma match_here_sound (s d u rest : string) :
  match_here s = Some ((d, u), rest) ->
  u = "MiB" /\ d <> "" /\ all_chars is_digit d = true
  /\ exists w, w <> "" /\ all_chars is_space w = true /\ s = d ++ w ++ "MiB" ++ rest.
Proof.
  unfold match_here.
  destruct (span is_digit s) as [digits r1] eqn:E1.
  destruct digits as [|dc dr]; [discriminate |].
  destruct (span is_space r1) as [blanks r2] eqn:E2.
  destruct blanks as [|bc br]; [discriminate |].
  destruct (startswith r2 "MiB") eqn:E3; [| discriminate].
  intros [= <- <- <-].
  apply span_split in E1 as [-> Hd]. apply span_split in E2 as [-> Hb].
  apply startswith_iff in E3 as [t ->].
  repeat split; try discriminate; try assumption.
  exists (String bc br). repeat split; try discriminate; assumption.
Qed.

Lemma match_here_shorter (s : string) (g : string * string) (rest : string) :
  match_here s = Some (g, rest) -> (String.length rest < String.length s)%nat.
Proof.
  destruct g as [d u]. intros H.
  apply match_here_sound in H as (_ & Hd & _ & w & Hw & _ & ->).
  rewrite !append_length. destruct d; [congruence | simpl; lia].
Qed.

(** Any fuel that covers the length of the text gives the same matches. *)
Lemma findall_fuel_enough (f1 f2 : nat) (s : string) :
  (String.length s <= f1)%nat -> (String.length s <= f2)%nat ->
  findall_fuel f1 s = findall_fuel f2 s.
Proof.
  revert f2 s. induction f1 as [|f1 IH]; intros f2 s H1 H2.
  - destruct s; [| simpl in H1; lia]. destruct f2; reflexivity.
  - destruct f2 as [|f2]; [destruct s; [reflexivity | simpl in H2; lia] |].
    simpl. destruct s as [|c r]; [reflexivity |].
    destruct (match_here (String c r)) as [[g rest]|] eqn:Em.
    + apply match_here_shorter in Em. f_equal. apply IH; simpl in *; lia.
    + apply IH; simpl in *; lia.
Qed.

Lemma findall_step (c : ascii) (r : string) :
  findall (String c r)
  = match match_here (String c r) with
    | Some (groups, rest) => groups :: findall rest
    | None => findall r
    end.
Proof.
  unfold findall. simpl String.length. cbn [findall_fuel].
  destruct (match_here (String c r)) as [[g rest]|] eqn:Em; [| reflexivity].
  f_equal. apply match_here_shorter in Em.
  apply findall_fuel_enough; simpl in *; lia.
Qed.

Lemma occurs_tail (x : string) (c : ascii) (r : string) :
  occurs x r -> occurs x (String c r).
Proof. intros [b [a ->]]. now exists (String c b), a. Qed.

Lemma occurs_suffix (x pre s : string) : occurs x s -> occurs x (pre ++ s).
Proof.
  intros [b [a ->]]. exists (pre ++ b), a. now rewrite append_assoc.
Qed.

Lemma reading_tail (d : string) (c : ascii) (r : string) :
  reading_of d r -> reading_of d (String c r).
Proof.
  intros (H1 & H2 & w & H3 & H4 & H5).
  repeat split; try assumption. exists w. repeat split; try assumption.
  now apply occurs_tail.
Qed.

Lemma reading_suffix (d pre s : string) : reading_of d s -> reading_of d (pre ++ s).
Proof.
  intros (H1 & H2 & w & H3 & H4 & H5).
  repeat split; try assumption. exists w. repeat split; try assumption.
  now apply occurs_suffix.
Qed.

Lemma findall_fuel_readings (f : nat) (s : string) (g : string * string) :
  In g (findall_fuel f s) -> snd g = "MiB" /\ reading_of (fst g) s.
Proof.
  revert s. induction f as [|f IH]; intros s; simpl; [intros [] |].
  destruct s as [|c r]; [intros [] |].
  destruct (match_here (String c r)) as [[[d u] rest]|] eqn:Em.
  - pose proof (match_here_sound _ _ _ _ Em) as (-> & Hd & Hdig & w & Hw & Hsp & Hs).
    intros [<- | Hin]; simpl.
    + split; [reflexivity |]. repeat split; try assumption.
      exists w. repeat split; try assumption.
      rewrite Hs. exists "", rest. simpl. now rewrite !append_assoc.
    + destruct (IH rest Hin) as [Hu Hr]. split; [assumption |].
      rewrite Hs.
      replace (d ++ w ++ "MiB" ++ rest) with ((d ++ w ++ "MiB") ++ rest)
        by now rewrite !append_assoc.
      now apply reading_suffix.
  - intros Hin. destruct (IH r Hin) as [Hu Hr]. split; [assumption |].
    now apply reading_tail.
Qed.

Lemma digit_facts (c : ascii) :
  is_digit c = true ->
  is_int_space c = false /\ (code c =? 43) = false /\ (code c =? 45) = false
  /\ 0 <= digit_value c.
Proof.
  unfold is_digit, is_int_space, digit_value. intros H.
  apply andb_true_iff in H as [H1 H2]. apply Z.leb_le in H1, H2.
  repeat split; lia.
Qed.

Lemma rstrip_digits (d : string) : all_chars is_digit d = true -> rstrip d = d.
Proof.
  induction d as [|c r IH]; simpl; [reflexivity |].
  intros H. apply andb_true_iff in H as [Hc Hr].
  rewrite (IH Hr). destruct r; [| reflexivity].
  now destruct (digit_facts c Hc) as (-> & _).
Qed.

Lemma digits_value_digits (d : string) (acc : Z) :
  all_chars is_digit d = true -> 0 <= acc ->
  exists v, digits_value acc d = Some v /\ acc <= v.
Proof.
  revert acc. induction d as [|c r IH]; simpl; intros acc H Hacc.
  - exists acc. split; [reflexivity | lia].
  - apply andb_true_iff in H as [Hc Hr]. rewrite Hc.
    destruct (digit_facts c Hc) as (_ & _ & _ & Hv).
    destruct (IH (10 * acc + digit_value c) Hr) as (v & Hv1 & Hv2); [lia |].
    exists v. split; [assumption | lia].
Qed.

Lemma parse_int_digits (d : string) :
  d <> "" -> all_chars is_digit d = true ->
  exists n, parse_int d = Some n /\ 0 <= n.
Proof.
  intros Hne Hd. unfold parse_int, strip.
  destruct d as [|c r]; [congruence |].
  pose proof Hd as Hd'. simpl in Hd'. apply andb_true_iff in Hd' as [Hc Hr].
  destruct (digit_facts c Hc) as (Hs & H43 & H45 & _).
  cbn [lstrip]. rewrite Hs, (rstrip_digits _ Hd), H43, H45.
  unfold int_body. rewrite Hc.
  now apply digits_value_digits.
Qed.

Lemma mem_loop_max (l : list (string * string)) (acc : Z) :
  (forall g, In g l -> exists n, parse_int (fst g) = Some n /\ 0 <= n) ->
  exists mem,
    mem_loop l acc = Ret mem
    /\ acc <= mem
    /\ (forall g, In g l -> reading_value g <= mem)
    /\ (mem = acc \/ In mem (map reading_value l)).
Proof.
  revert acc. induction l as [|[d u] rest IH]; intros acc H; simpl.
  - exists acc. repeat split; [lia | intros g [] | now left].
  - destruct (H (d, u) (or_introl eq_refl)) as (n & Hn & Hn0). simpl in Hn.
    unfold int_. rewrite Hn. cbn [bind].
    destruct (IH (Z.max n acc)) as (mem & Hm & Hge & Hall & Hin).
    { intros g Hg. apply H. now right. }
    exists mem. split; [assumption |]. split; [lia |]. split.
    + intros g [<- | Hg]; [| now apply Hall].
      unfold reading_value. simpl. rewrite Hn. lia.
    + assert (Hrv : reading_value (d, u) = n)
        by (unfold reading_value; simpl; now rewrite Hn).
      rewrite Hrv.
      destruct Hin as [-> | Hin]; [| right; now right].
      destruct (Z.max_spec n acc) as [[_ ->] | [_ ->]]; [now left | right; now left].
Qed.

Lemma gpu_info_of_matches (cli : CMDRunner) (text : string) :
  findall text <> [] ->
  exists mem,
    gpu_info_of_response cli text = Ret (Z.of_nat (List.length (findall text)), mem)
    /\ In mem (readings text)
    /\ (forall m, In m (readings text) -> m <= mem)
    /\ (forall g, In g (findall text) -> reading_of (fst g) text).
Proof.
  intros Hne.
  assert (Hread : forall g, In g (findall text) -> snd g = "MiB" /\ reading_of (fst g) text)
    by (intros g; apply findall_fuel_readings).
  assert (Hint : forall g, In g (findall text) ->
                           exists n, parse_int (fst g) = Some n /\ 0 <= n).
  { intros g Hg. destruct (Hread g Hg) as (_ & Hd & Hdig & _).
    now apply parse_int_digits. }
  destruct (mem_loop_max (findall text) 0 Hint) as (mem & Hm & Hge & Hall & Hin).
  exists mem. unfold gpu_info_of_response.
  assert (Hlen : (Z.of_nat (List.length (findall text)) =? 0) = false).
  { apply Z.eqb_neq. destruct (findall text); [congruence | simpl; lia]. }
  rewrite Hlen. cbn [bind]. rewrite Hm. cbn [bind].
  fold reading_value in *. unfold readings.
  split; [reflexivity |]. split; [| split].
  - destruct Hin as [-> | Hin]; [| assumption].
    destruct (findall text) as [|g rest] eqn:Ef; [congruence |].
    destruct (Hint g (or_introl eq_refl)) as (n & Hn & Hn0).
    assert (Hg : reading_value g <= 0) by (apply Hall; now left).
    assert (Hv : reading_value g = n) by (unfold reading_value; now rewrite Hn).
    left. change (reading_value g = 0). lia.
  - intros m Hm'. apply in_map_iff in Hm' as (g & <- & Hg).
    now apply Hall.
  - intros g Hg. now apply Hread.
Qed.

Lemma gpu_info_of_no_match (cli : CMDRunner) (h : handler) (text : string) :
  findall text = [] ->
  fail_action cli = Some h ->
  gpu_info_of_response cli text
  = (_ <- h (ValueError ("Unrecognized GPU memory output format: " ++ text)) NoMsg ;;
     Ret (0, 0)).
Proof.
  intros Hnil Hf. unfold gpu_info_of_response, call_fail_action.
  rewrite Hnil, Hf. cbn. destruct (h _ _); reflexivity.
Qed.

End GpuMemory.

(** What [get_worker_gpu_info] counts.  The GPU count is the number of
    matches of the pattern (digits, white space, [MiB]) that [re.findall]
    finds in the whole response, and the per-GPU memory is the maximum of the
    matched readings.  A response with two "15109 MiB" readings and one
    warning line gives count 2 and memory 15109.  With no match, an
    installed failure handler is handed a [ValueError] carrying the raw
    text; what follows is the handler's decision. *)
Theorem get_worker_gpu_info_readings :
  (forall subprocess_run cli zone worker text,
      fst (gcloud subprocess_run cli (gpu_memory_cmd zone worker) 0
             (Some no_driver_msg) false) = Ret text ->
      findall text <> [] ->
      exists mem,
        get_worker_gpu_info subprocess_run cli zone worker
        = Ret (Z.of_nat (List.length (findall text)), mem)
        /\ In mem (readings text)
        /\ (forall m, In m (readings text) -> m <= mem)
        /\ (forall g, In g (findall text) -> reading_of (fst g) text))
  /\ (forall subprocess_run cli h zone worker text,
         fst (gcloud subprocess_run cli (gpu_memory_cmd zone worker) 0
                (Some no_driver_msg) false) = Ret text ->
         findall text = [] ->
         fail_action cli = Some h ->
         get_worker_gpu_info subprocess_run cli zone worker
         = (_ <- h (memory_error text) NoMsg ;; Ret (0, 0)))
  /\ (forall cli zone worker,
         get_worker_gpu_info (printing_process sample_memory_response) cli zone worker
         = Ret (2, 15109)).
Proof.
  split; [| split].
  - intros sp cli zone worker text Hq Hne.
    unfold get_worker_gpu_info. rewrite Hq. cbn [bind].
    now apply gpu_info_of_matches.
  - intros sp cli h zone worker text Hq Hnil Hf.
    unfold get_worker_gpu_info. rewrite Hq. cbn [bind].
    now apply gpu_info_of_no_match.
  - intros cli zone worker. unfold get_worker_gpu_info, gcloud, run.
    cbn [printing_process returncode stdout stderr negb].
    unfold _check_subprocess_result. cbn [returncode Z.eqb negb fst bind].
    vm_compute. reflexivity.
Qed.

Lemma get_worker_gpu_info_readings_witness :
  (exists mem,
      get_worker_gpu_info (printing_process "16160 MiB") default_runner
        "us-central1-a" "cluster-w-0"
      = Ret (Z.of_nat (List.length (findall "16160 MiB")), mem)
      /\ In mem (readings "16160 MiB")
      /\ (forall m, In m (readings "16160 MiB") -> m <= mem)
      /\ (forall g, In g (findall "16160 MiB") -> reading_of (fst g) "16160 MiB"))
  /\ get_worker_gpu_info (printing_process "No devices were found") continuing_runner
       "us-central1-a" "cluster-w-0"
     = Ret (0, 0).
Proof.
  split.
  - apply (proj1 get_worker_gpu_info_readings).
    + reflexivity.
    + vm_compute. discriminate.
  - rewrite (proj1 (proj2 get_worker_gpu_info_readings)
               (printing_process "No devices were found") continuing_runner
               (fun _ _ => Ret tt) "us-central1-a" "cluster-w-0"
               "No devices were found"); reflexivity.
Defined.

(** C3, the code at the failing inputs.  The count is not the number of
    lines in the format the code's own comment names: the pattern is not
    tied to the line.  Two readings on one line are one line and count as 2;
    a number at the end of one line and [MiB] at the start of the next are a
    reading on no line and count as 1. *)
Lemma gpu_count_is_not_a_line_count :
  count_matching_lines "15109 MiB, 15109 MiB" = 1
  /\ gpu_info_of_response default_runner "15109 MiB, 15109 MiB" = Ret (2, 15109)
  /\ count_matching_lines ("15109" ++ nl ++ "MiB") = 0
  /\ gpu_info_of_response default_runner ("15109" ++ nl ++ "MiB") = Ret (1, 15109)
  /\ get_worker_gpu_info (printing_process "15109 MiB, 15109 MiB") default_runner
       "us-central1-a" "cluster-w-0" = Ret (2, 15109)
  /\ get_worker_gpu_info (printing_process ("15109" ++ nl ++ "MiB")) default_runner
       "us-central1-a" "cluster-w-0" = Ret (1, 15109).
Proof. repeat split; vm_compute; reflexivity. Qed.

(* ===================================================================== *)
(** ** The GPU device name *)
(* ===================================================================== *)

Lemma gpu_device_of_first_line (cli : CMDRunner) (text line : string)
    (rest : list string) (g : string) :
  splitlines text = line :: rest ->
  parse_supported_gpu line = Some g ->
  gpu_device_of_response cli text = Ret (Some g).
Proof.
  intros Hl Hp. unfold gpu_device_of_response. rewrite Hl. cbn [List.length].
  replace (Z.of_nat (S (List.length rest)) =? 0) with false
    by (symmetry; apply Z.eqb_neq; lia).
  cbn [bind]. now rewrite Hp.
Qed.

(** C4, the code at the failing input.  The second line of the response
    matches none of the five GPU names, yet [get_worker_gpu_device] returns
    the device of the first line and reports nothing: the loop returns in
    its first iteration and the second line is never looked at. *)
Theorem get_worker_gpu_device_first_line_only :
  splitlines two_device_response = ["Tesla T4"; "Unknown accelerator"]
  /\ parse_supported_gpu "Unknown accelerator" = None
  /\ get_worker_gpu_device (printing_process two_device_response) default_runner
       "us-central1-a" "cluster-w-0"
     = Ret (Some "T4").
Proof. repeat split; vm_compute; reflexivity. Qed.

(* ===================================================================== *)
(** ** Re-rooting a captured document *)
(* ===================================================================== *)

Section Reroot.

Lemma dfs_value_cons (k : string) (value : yaml) (rest : list (string * yaml)) :
  dfs_value (YDict ((k, value) :: rest))
  = match value with
    | YDict _ =>
        if is_config_key k then Some [("config", value)]
        else match dfs_value value with
             | Some returned => Some returned
             | None => dfs_value (YDict rest)
             end
    | _ => dfs_value (YDict rest)
    end.
Proof. destruct value; reflexivity. Qed.

Lemma submappings_cons (k : string) (value : yaml) (rest : list (string * yaml)) :
  submappings (YDict ((k, value) :: rest))
  = match value with
    | YDict _ => (k, value) :: (submappings value ++ submappings (YDict rest))%list
    | _ => submappings (YDict rest)
    end.
Proof. destruct value; reflexivity. Qed.

Lemma find_append {A : Type} (f : A -> bool) (a b : list A) :
  List.find f (a ++ b)%list
  = match List.find f a with Some x => Some x | None => List.find f b end.
Proof.
  induction a as [|x r IH]; simpl; [reflexivity |].
  destruct (f x); [reflexivity | exact IH].
Qed.

(** The search of the code finds the first entry of the pre-order listing. *)
Lemma dfs_value_first (v : yaml) :
  dfs_value v = reroot (List.find config_entry (submappings v)).
Proof.
  induction v as [| | | | items _ | entries IH] using yaml_induct; try reflexivity.
  induction IH as [|[k value] rest Hvalue _ IHrest]; [reflexivity |].
  rewrite dfs_value_cons, submappings_cons.
  destruct value; try exact IHrest.
  cbn [List.find]. unfold config_entry at 1. cbn [fst].
  destruct (is_config_key k); [reflexivity |].
  cbn [snd] in Hvalue. rewrite Hvalue, find_append.
  destruct (List.find config_entry (submappings (YDict entries))) as [[k' v']|];
    [reflexivity | exact IHrest].
Qed.

Lemma in_submappings_here (entries : list (string * yaml)) (k : string)
    (d : list (string * yaml)) :
  In (k, YDict d) entries -> In (k, YDict d) (submappings (YDict entries)).
Proof.
  induction entries as [|[k' v'] rest IH]; [intros [] |].
  rewrite submappings_cons. intros [[= -> ->] | Hin].
  - now left.
  - destruct v'; try (now apply IH).
    right. apply in_or_app. right. now apply IH.
Qed.

Lemma in_submappings_below (entries : list (string * yaml)) (k : string) (v : yaml)
    (kv : string * yaml) :
  In (k, v) entries -> In kv (submappings v) -> In kv (submappings (YDict entries)).
Proof.
  induction entries as [|[k' v'] rest IH]; [intros [] |].
  rewrite submappings_cons. intros [[= -> ->] | Hin] Hkv.
  - destruct v; try (now destruct Hkv).
    right. apply in_or_app. now left.
  - destruct v'; try (now apply IH).
    right. apply in_or_app. right. now apply IH.
Qed.

Lemma contains_config_cons (x : string * yaml) (rest : list (string * yaml)) :
  contains_config (YDict rest) -> contains_config (YDict (x :: rest)).
Proof.
  intros H. inversion H as [e k d Hin Hk | e k v Hin Hv]; subst.
  - apply (config_here _ k d); [now right | assumption].
  - apply (config_below _ k v); [now right | assumption].
Qed.

Lemma contains_config_listed (v : yaml) :
  contains_config v <->
  exists kv, In kv (submappings v) /\ config_entry kv = true.
Proof.
  split.
  - induction 1 as [entries k d Hin Hk | entries k v Hin Hv IH].
    + exists (k, YDict d). split; [now apply in_submappings_here | assumption].
    + destruct IH as (kv & Hkv & Hc). exists kv.
      split; [now apply (in_submappings_below entries k v) | assumption].
  - induction v as [| | | | items _ | entries IH] using yaml_induct;
      try (intros (kv & [] & _)).
    induction IH as [|[k value] rest Hvalue _ IHrest]; [intros (kv & [] & _) |].
    rewrite submappings_cons. intros (kv & Hin & Hc).
    destruct value as [| | | | items | d];
      try (apply contains_config_cons, IHrest; now exists kv).
    destruct Hin as [<- | Hin].
    + apply (config_here _ k d); [now left | assumption].
    + apply in_app_or in Hin as [Hin | Hin].
      * apply (config_below _ k (YDict d)); [now left |].
        apply Hvalue. now exists kv.
      * apply contains_config_cons, IHrest. now exists kv.
Qed.

Lemma submappings_are_mappings (v : yaml) (kv : string * yaml) :
  In kv (submappings v) -> exists d, snd kv = YDict d.
Proof.
  induction v as [| | | | items _ | entries IH] using yaml_induct;
    try (intros []).
  induction IH as [|[k value] rest Hvalue _ IHrest]; [intros [] |].
  rewrite submappings_cons.
  destruct value as [| | | | items | d]; try exact IHrest.
  intros [<- | Hin]; [now exists d |].
  apply in_app_or in Hin as [Hin | Hin]; [now apply Hvalue | now apply IHrest].
Qed.

Lemma lookup_under_config (v : yaml) (path : list string) :
  get_value (Some [("config", v)]) ("config" :: path) = lookup path v.
Proof. reflexivity. Qed.

End Reroot.

(** C9, amended.  The pre-processing of the shadow container camel-cases
    the keys of the loaded document and then replaces it by the result of
    the depth-first search: the first mapping, in depth-first order through
    mappings nested directly in mappings, that is stored under the key
    [config] or [clusterConfig], kept under the single key [config].  When
    the converted document holds such a mapping at any depth of nested
    mappings, the lookup of [config] succeeds and every lookup under
    [config] is answered inside that mapping; when it holds none there, the
    document becomes [None] and every later lookup fails.  The items of
    sequences are not searched. *)
Theorem process_loaded_props_reroots
    (convert_dict_to_camel_case : list (string * yaml) -> list (string * yaml))
    (props : list (string * yaml)) :
  let converted := convert_dict_to_camel_case props in
  let processed := _process_loaded_props convert_dict_to_camel_case props in
  processed
  = match first_config_submapping converted with
    | Some v => Some [("config", v)]
    | None => None
    end
  /\ (contains_config (YDict converted) ->
      exists d,
        first_config_submapping converted = Some (YDict d)
        /\ processed = Some [("config", YDict d)]
        /\ get_value processed ["config"] = Some (YDict d)
        /\ forall path, get_value processed ("config" :: path) = lookup path (YDict d))
  /\ (~ contains_config (YDict converted) ->
      processed = None /\ forall keys, get_value processed keys = None).
Proof.
  intros converted processed.
  assert (Heq : processed
                = match first_config_submapping converted with
                  | Some v => Some [("config", v)]
                  | None => None
                  end).
  { unfold processed, _process_loaded_props, _dfs_configuration.
    fold converted. rewrite dfs_value_first. unfold first_config_submapping.
    change (fun kv : string * yaml => is_config_key (fst kv)) with config_entry.
    destruct (List.find config_entry (submappings (YDict converted))) as [[k v]|];
      reflexivity. }
  split; [exact Heq |]. split.
  - intros Hc. apply contains_config_listed in Hc as (kv & Hin & Hk).
    unfold first_config_submapping in *.
    change (fun kv : string * yaml => is_config_key (fst kv)) with config_entry in *.
    destruct (List.find config_entry (submappings (YDict converted))) as [[k v]|] eqn:Ef.
    + apply find_some in Ef as [Hin' _].
      destruct (submappings_are_mappings _ _ Hin') as [d Hd]. simpl in Hd. subst v.
      exists d. rewrite Heq. repeat split.
    + pose proof (find_none _ _ Ef kv Hin). congruence.
  - intros Hn'.
    assert (Hnone : processed = None).
    { rewrite Heq. unfold first_config_submapping.
      change (fun kv : string * yaml => is_config_key (fst kv)) with config_entry.
      destruct (List.find config_entry (submappings (YDict converted))) as [[k v]|] eqn:Ef;
        [| reflexivity].
      apply find_some in Ef as [Hin Hk]. elim Hn'.
      apply contains_config_listed. now exists (k, v). }
    split; [assumption |]. intros keys. now rewrite Hnone.
Qed.

Lemma process_loaded_props_reroots_witness :
  (exists d,
      first_config_submapping captured_document = Some (YDict d)
      /\ _process_loaded_props keys_kept captured_document
         = Some [("config", YDict d)]
      /\ get_value (_process_loaded_props keys_kept captured_document) ["config"]
         = Some (YDict d)
      /\ forall path,
          get_value (_process_loaded_props keys_kept captured_document)
            ("config" :: path)
          = lookup path (YDict d))
  /\ (_process_loaded_props keys_kept [("kind", YStr "dataproc")] = None
      /\ forall keys,
          get_value (_process_loaded_props keys_kept [("kind", YStr "dataproc")])
            keys = None).
Proof.
  split.
  - apply (proj1 (proj2 (process_loaded_props_reroots keys_kept captured_document))).
    apply (config_below _ "cluster"
             (YDict [("clusterName", YStr "demo");
                     ("labels", YDict [("team", YStr "etl")]);
                     ("clusterConfig",
                      YDict [("workerConfig",
                              YDict [("numInstances", YInt 2);
                                     ("machineTypeUri", YStr "n1-standard-8")])])])).
    + right. left. reflexivity.
    + eapply (config_here _ "clusterConfig").
      * right. right. left. reflexivity.
      * reflexivity.
  - apply (proj2 (proj2 (process_loaded_props_reroots keys_kept
                           [("kind", YStr "dataproc")]))).
    intros H. apply contains_config_listed in H as (kv & [] & _).
Defined.

(** The claim C9 as stated fails on a document that holds its [config]
    mapping inside a sequence: the search only enters values that are
    mappings, finds nothing, and the document becomes [None]. *)
Lemma process_loaded_props_skips_sequences :
  holds_config (YDict listed_document)
  /\ _process_loaded_props keys_kept listed_document = None
  /\ get_value (_process_loaded_props keys_kept listed_document) ["config"] = None.
Proof.
  split; [| split; reflexivity].
  apply (held_below _ "clusters"
           (YList [YDict [("clusterName", YStr "demo");
                          ("config",
                           YDict [("workerConfig",
                                   YDict [("numInstances", YInt 2)])])]])).
  - right. left. reflexivity.
  - eapply held_in_item; [left; reflexivity |].
    eapply (held_here _ "config"); [right; left; reflexivity | reflexivity].
Qed.

Example process_loaded_props_example :
  get_value (_process_loaded_props keys_kept captured_document)
    ["config"; "workerConfig"; "numInstances"] = Some (YInt 2)
  /\ get_value (_process_loaded_props keys_kept captured_document)
       ["cluster"; "clusterName"] = None.
Proof. split; reflexivity. Qed.

(* ===================================================================== *)
(** ** More on the machine-type rules *)
(* ===================================================================== *)

Section MachineRules.

Lemma index_last_last {A : Type} (l : list A) (d : A) :
  l <> [] -> index_last l = Ret (last l d).
Proof.
  intros H. rewrite (app_removelast_last d H) at 1. apply index_last_snoc.
Qed.

Lemma split_parts_clean (sep : ascii) (s p : string) :
  In p (split sep s) -> has_char sep p = false.
Proof.
  revert p. induction s as [|c r IH]; simpl; intros p.
  - intros [<- | []]. reflexivity.
  - destruct (Ascii.eqb c sep) eqn:E.
    + intros [<- | Hin]; [reflexivity | now apply IH].
    + pose proof (split_nonempty sep r) as Hne.
      destruct (split sep r) as [|h t]; [congruence |].
      intros [<- | Hin].
      * simpl. rewrite E. apply IH. now left.
      * apply IH. now right.
Qed.

(** What [map_to_closest_supported_match] does on any text, by the number
    of its segments and the form of the last one. *)
Lemma map_outcome (machine_type : string) :
  match split "-" machine_type with
  | [] => False
  | [_] =>
      map_to_closest_supported_match machine_type
      = Raise (IndexError "list index out of range")
  | first :: tier :: rest =>
      match parse_int (last (tier :: rest) "") with
      | Some n =>
          map_to_closest_supported_match machine_type
          = Ret ("n1-" ++ tier ++ "-" ++ str_of_int (get_core n))
      | None =>
          map_to_closest_supported_match machine_type
          = Raise (ValueError ("invalid literal for int() with base 10: "
                               ++ repr (last (tier :: rest) "")))
      end
  end.
Proof.
  unfold map_to_closest_supported_match.
  pose proof (split_nonempty "-" machine_type) as Hne.
  destruct (split "-" machine_type) as [|p0 [|p1 rest]]; [congruence | reflexivity |].
  rewrite (index_last_last (p0 :: p1 :: rest) "") by discriminate.
  change (last (p0 :: p1 :: rest) "") with (last (p1 :: rest) "").
  cbn [bind index nth_error]. unfold int_.
  destruct (parse_int (last (p1 :: rest) "")); reflexivity.
Qed.

Lemma map_output_form (machine_type out : string) :
  map_to_closest_supported_match machine_type = Ret out ->
  exists tier n, segment tier /\ out = "n1-" ++ tier ++ "-" ++ str_of_int (get_core n).
Proof.
  intros H. pose proof (map_outcome machine_type) as Ho.
  destruct (split "-" machine_type) as [|p0 [|p1 rest]] eqn:Es; [contradiction | congruence |].
  destruct (parse_int (last (p1 :: rest) "")) as [n|]; [| congruence].
  rewrite Ho in H. injection H as <-. exists p1, n. split; [| reflexivity].
  apply (split_parts_clean "-" machine_type). rewrite Es. right. now left.
Qed.

Lemma map_output_stable (machine_type out : string) :
  map_to_closest_supported_match machine_type = Ret out ->
  is_machine_compatible_for_gpu out = true
  /\ map_to_closest_supported_match out = Ret out.
Proof.
  intros H. destruct (map_output_form _ _ H) as (tier & n & Ht & ->).
  destruct (ladder_entry_facts _ (get_core_in_ladder n)) as (Hs & Hp & Hg).
  split; [reflexivity |].
  change ("n1-" ++ tier ++ "-" ++ str_of_int (get_core n))
    with ("n1" ++ "-" ++ tier ++ "-" ++ str_of_int (get_core n)).
  rewrite (map_three "n1" tier _ (get_core n)); try assumption; try reflexivity.
  now rewrite Hg.
Qed.

Lemma lower_char_eqb (c : ascii) :
  Ascii.eqb (lower_char c) "n" = (Ascii.eqb c "n" || Ascii.eqb c "N")
  /\ Ascii.eqb (lower_char c) "1" = Ascii.eqb c "1"
  /\ Ascii.eqb (lower_char c) "-" = Ascii.eqb c "-".
Proof.
  destruct c as [[] [] [] [] [] [] [] []]; repeat split; vm_compute; reflexivity.
Qed.

End MachineRules.

(** X1.  [map_to_closest_supported_match] returns exactly on the texts with
    at least two hyphen-separated segments whose last segment [int] accepts,
    and then with [n1-], the second segment, and the ladder entry for the
    last segment.  A text of one segment ends in [IndexError]; a text of
    more segments whose last one [int] rejects, a word or a number with a
    separator 0x1c..0x1f around it, ends in [ValueError]. *)
Theorem map_to_closest_supported_match_outcome (machine_type : string) :
  let parts := split "-" machine_type in
  (returns (map_to_closest_supported_match machine_type) = true
   <-> (2 <= List.length parts)%nat /\ parse_int (last parts "") <> None)
  /\ (forall out,
         map_to_closest_supported_match machine_type = Ret out ->
         exists n,
           parse_int (last parts "") = Some n
           /\ out = "n1-" ++ nth 1 parts "" ++ "-" ++ str_of_int (get_core n))
  /\ (List.length parts = 1%nat ->
      exists msg, map_to_closest_supported_match machine_type = Raise (IndexError msg))
  /\ ((2 <= List.length parts)%nat -> parse_int (last parts "") = None ->
      exists msg, map_to_closest_supported_match machine_type = Raise (ValueError msg)).
Proof.
  intros parts. pose proof (map_outcome machine_type) as H. subst parts.
  destruct (split "-" machine_type) as [|p0 [|p1 rest]]; [contradiction | |].
  - rewrite H. cbn [List.length last returns].
    split; [| split; [| split]].
    + split; [discriminate | intros [Hl _]; lia].
    + discriminate.
    + intros _. now eexists.
    + intros Hl. lia.
  - change (last (p0 :: p1 :: rest) "") with (last (p1 :: rest) "").
    cbn [List.length nth].
    destruct (parse_int (last (p1 :: rest) "")) as [n|]; rewrite H; cbn [returns];
      (split; [| split; [| split]]).
    + split; [intros _; split; [lia | discriminate] | reflexivity].
    + intros out [= <-]. now exists n.
    + intros Hl. lia.
    + intros _ Hn. discriminate.
    + split; [discriminate | intros [_ Hn]; congruence].
    + discriminate.
    + intros Hl. lia.
    + intros _ _. now eexists.
Qed.

Lemma map_to_closest_supported_match_outcome_witness :
  exists msg,
    map_to_closest_supported_match ("n2-standard-" ++ String (chr 28) "8")
    = Raise (ValueError msg).
Proof.
  apply (proj2 (proj2 (proj2 (map_to_closest_supported_match_outcome
                                ("n2-standard-" ++ String (chr 28) "8"))))).
  - simpl. lia.
  - reflexivity.
Defined.

(** X2.  Wherever [map_to_closest_supported_match] returns, whatever the
    number of segments of its input, the machine type it returns is accepted
    by [is_machine_compatible_for_gpu] and is mapped to itself. *)
Theorem map_to_closest_supported_match_stable (machine_type out : string) :
  map_to_closest_supported_match machine_type = Ret out ->
  is_machine_compatible_for_gpu out = true
  /\ map_to_closest_supported_match out = Ret out.
Proof. exact (map_output_stable machine_type out). Qed.

Lemma map_to_closest_supported_match_stable_witness :
  is_machine_compatible_for_gpu "n1-custom-96" = true
  /\ map_to_closest_supported_match "n1-custom-96" = Ret "n1-custom-96".
Proof.
  apply (map_to_closest_supported_match_stable "n2-custom-80-327680").
  reflexivity.
Defined.

(** X3.  [get_core] always answers with an entry of the ladder; it never
    answers with fewer cores than asked for unless more than 96 are asked
    for; it is monotone; and it leaves exactly the ladder entries unchanged. *)
Theorem get_core_ladder (n m : Z) :
  In (get_core n) dataproc_n1_cores
  /\ 2 <= get_core n <= 96
  /\ (n <= 96 -> n <= get_core n)
  /\ (96 < n -> get_core n = 96)
  /\ (n <= m -> get_core n <= get_core m)
  /\ (get_core n = n <-> In n dataproc_n1_cores).
Proof.
  unfold get_core, dataproc_n1_cores, first_at_least.
  repeat match goal with
         | |- context [?c >=? n] => destruct (Z.geb_spec c n)
         end; cbn [last In];
    repeat match goal with
           | |- context [?c >=? m] => destruct (Z.geb_spec c m)
           end; cbn [last In];
    repeat split; try lia; try tauto; intros; try lia;
    repeat match goal with H : _ \/ _ |- _ => destruct H end; try lia; try contradiction.
Qed.

Lemma get_core_ladder_witness :
  In (get_core 6) dataproc_n1_cores
  /\ 2 <= get_core 6 <= 96
  /\ (6 <= 96 -> 6 <= get_core 6)
  /\ (96 < 6 -> get_core 6 = 96)
  /\ (6 <= 40 -> get_core 6 <= get_core 40)
  /\ (get_core 6 = 6 <-> In 6 dataproc_n1_cores).
Proof. exact (get_core_ladder 6 40). Defined.

(** X4.  [is_machine_compatible_for_gpu] accepts exactly the texts that begin
    with [n1-] or [N1-]. *)
Theorem is_machine_compatible_for_gpu_prefix (machine_type : string) :
  is_machine_compatible_for_gpu machine_type = true
  <-> exists rest, machine_type = "n1-" ++ rest \/ machine_type = "N1-" ++ rest.
Proof.
  unfold is_machine_compatible_for_gpu, lower.
  destruct machine_type as [|c0 [|c1 [|c2 rest]]]; cbn [map_chars startswith].
  - split; [discriminate | intros [r [H | H]]; discriminate].
  - rewrite andb_false_r. split; [discriminate | intros [r [H | H]]; discriminate].
  - rewrite !andb_false_r. split; [discriminate | intros [r [H | H]]; discriminate].
  - destruct (lower_char_eqb c0) as (-> & _ & _).
    destruct (lower_char_eqb c1) as (_ & -> & _).
    destruct (lower_char_eqb c2) as (_ & _ & ->).
    rewrite andb_true_r, !andb_true_iff, orb_true_iff, !Ascii.eqb_eq. split.
    + intros [[-> | ->] [-> ->]]; exists rest; [now left | now right].
    + intros [r [[= -> -> -> _] | [= -> -> -> _]]]; auto.
Qed.

(* ===================================================================== *)
(** ** More on the incompatibility report *)
(* ===================================================================== *)

Lemma suggested_image_passes : startswith "2.0+" "1.5" = false.
Proof. reflexivity. Qed.

Opaque image_comment machine_comment ssd_comment startswith
  is_machine_compatible_for_gpu map_to_closest_supported_match.

Section ReportShape.

Lemma report_closed_form (c : criteria) (r : report) :
  get_incompatible_criteria c = Ret r -> r = expected_report c.
Proof.
  destruct c as [iv mt ssd].
  unfold get_incompatible_criteria, check_image, check_machine, check_ssds,
    expected_report, expected_entries, expected_comments,
    flag_image, flag_machine, flag_ssds, converted_type.
  cbn [imageVersion machineType workerLocalSSDs].
  destruct iv as [v|]; [destruct (startswith v "1.5") |];
    (destruct mt as [m|];
     [destruct (is_machine_compatible_for_gpu m);
      [| destruct (map_to_closest_supported_match m) as [t | e | h e]] |]);
    (destruct ssd as [n|]; [destruct (n =? 0) |]);
    cbn; intros H; try discriminate; injection H as <-; reflexivity.
Qed.

Lemma report_returns_iff (c : criteria) :
  returns (get_incompatible_criteria c) = true <-> convertible c.
Proof.
  destruct c as [iv mt ssd].
  unfold convertible, get_incompatible_criteria, check_image, check_machine, check_ssds.
  cbn [imageVersion machineType workerLocalSSDs].
  destruct mt as [m|].
  - destruct (is_machine_compatible_for_gpu m) eqn:Em.
    + split.
      * intros _ m' [= <-] Hm. congruence.
      * intros _. destruct iv as [v|]; [destruct (startswith v "1.5") |];
          (destruct ssd as [n|]; [destruct (n =? 0) |]); reflexivity.
    + destruct (map_to_closest_supported_match m) as [t | e | h e] eqn:Et.
      * split.
        -- intros _ m' [= <-] _. now rewrite Et.
        -- intros _. destruct iv as [v|]; [destruct (startswith v "1.5") |];
             (destruct ssd as [n|]; [destruct (n =? 0) |]); reflexivity.
      * split.
        -- destruct iv as [v|]; [destruct (startswith v "1.5") |]; discriminate.
        -- intros H. specialize (H m eq_refl Em). rewrite Et in H. discriminate.
      * split.
        -- destruct iv as [v|]; [destruct (startswith v "1.5") |]; discriminate.
        -- intros H. specialize (H m eq_refl Em). rewrite Et in H. discriminate.
  - split.
    + intros _ m' H. discriminate.
    + intros _. destruct iv as [v|]; [destruct (startswith v "1.5") |];
        (destruct ssd as [n|]; [destruct (n =? 0) |]); reflexivity.
Qed.

Lemma report_conversion_failure (c : criteria) (m : string) (e : exn) :
  machineType c = Some m ->
  is_machine_compatible_for_gpu m = false ->
  map_to_closest_supported_match m = Raise e ->
  get_incompatible_criteria c = Raise e.
Proof.
  destruct c as [iv mt ssd]. cbn [machineType]. intros -> Hm He.
  unfold get_incompatible_criteria, check_image, check_machine, check_ssds.
  cbn [imageVersion machineType workerLocalSSDs]. rewrite Hm, He.
  destruct iv as [v|]; [destruct (startswith v "1.5") |]; reflexivity.
Qed.

Lemma report_of_passing (c : criteria) :
  flag_image c = false -> flag_machine c = false -> flag_ssds c = false ->
  get_incompatible_criteria c = Ret [].
Proof.
  destruct c as [iv mt ssd].
  unfold flag_image, flag_machine, flag_ssds, get_incompatible_criteria,
    check_image, check_machine, check_ssds.
  cbn [imageVersion machineType workerLocalSSDs].
  intros Hi Hm Hs.
  destruct iv as [v|]; [rewrite Hi |];
    (destruct mt as [m|]; [rewrite Hm |]);
    (destruct ssd as [n|]; [rewrite Hs |]); reflexivity.
Qed.

Lemma converted_type_passes (c : criteria) (r : report) :
  get_incompatible_criteria c = Ret r ->
  flag_machine c = true ->
  is_machine_compatible_for_gpu (converted_type c) = true.
Proof.
  intros Hr Hf.
  assert (Hc : convertible c) by (apply report_returns_iff; now rewrite Hr).
  unfold flag_machine in Hf. unfold converted_type.
  destruct (machineType c) as [m|] eqn:Em; [| discriminate].
  apply negb_true_iff in Hf. specialize (Hc m Em Hf).
  destruct (map_to_closest_supported_match m) as [t | |] eqn:Et; try discriminate.
  now destruct (map_output_stable m t Et).
Qed.

Lemma suggestions_pass (c : criteria) (r : report) :
  get_incompatible_criteria c = Ret r ->
  get_incompatible_criteria (apply_suggestions c r) = Ret [].
Proof.
  intros Hr. pose proof (converted_type_passes c r Hr) as Hconv.
  apply report_closed_form in Hr. subst r.
  apply report_of_passing;
    unfold apply_suggestions, expected_report, expected_entries, expected_comments,
      flag_image, flag_machine, flag_ssds in *;
    cbn [imageVersion machineType workerLocalSSDs] in *;
    destruct c as [iv mt ssd]; cbn [imageVersion machineType workerLocalSSDs] in *;
    (destruct iv as [v|]; [destruct (startswith v "1.5") eqn:Ev |]);
    (destruct mt as [m|]; [destruct (is_machine_compatible_for_gpu m) eqn:Em |]);
    (destruct ssd as [n|]; [destruct (n =? 0) eqn:En |]);
    cbn in *; try reflexivity; try assumption;
    try apply suggested_image_passes;
    try (rewrite Em; reflexivity);
    try (rewrite Hconv; reflexivity).
Qed.

End ReportShape.

(** X5.  [get_incompatible_criteria] returns a report exactly when the
    machine type, if it is supplied and not accepted, can be converted; when
    the conversion raises, that exception is what the call ends in. *)
Theorem get_incompatible_criteria_returns_iff (c : criteria) :
  (returns (get_incompatible_criteria c) = true <-> convertible c)
  /\ (forall m e,
         machineType c = Some m ->
         is_machine_compatible_for_gpu m = false ->
         map_to_closest_supported_match m = Raise e ->
         get_incompatible_criteria c = Raise e).
Proof.
  split; [apply report_returns_iff |].
  intros m e. apply report_conversion_failure.
Qed.

(** X6.  A report that [get_incompatible_criteria] returns holds exactly the
    violated criteria, in the order imageVersion, machineType,
    workerLocalSSDs, each once, followed by [comments] when there is at least
    one; the comments carry the same keys in the same order. *)
Theorem get_incompatible_criteria_keys (c : criteria) (r : report) :
  get_incompatible_criteria c = Ret r ->
  r = expected_report c
  /\ map fst r
     = (flagged_keys c ++ match flagged_keys c with [] => [] | _ => ["comments"] end)%list
  /\ map fst (expected_comments c) = flagged_keys c
  /\ (flagged_keys c <> [] ->
      dict_get "comments" r = Some (VComments (expected_comments c))).
Proof.
  intros Hr. apply report_closed_form in Hr. subst r.
  split; [reflexivity |].
  unfold expected_report, expected_entries, expected_comments, flagged_keys.
  destruct (flag_image c), (flag_machine c), (flag_ssds c); cbn;
    repeat split; try reflexivity; intros H; congruence.
Qed.

(** X7.  Following a report clears it: when every suggested value replaces
    the value it was suggested for, [get_incompatible_criteria] returns the
    empty report. *)
Theorem get_incompatible_criteria_suggestions_pass (c : criteria) (r : report) :
  get_incompatible_criteria c = Ret r ->
  get_incompatible_criteria (apply_suggestions c r) = Ret [].
Proof. exact (suggestions_pass c r). Qed.


Transparent image_comment machine_comment ssd_comment startswith
  is_machine_compatible_for_gpu map_to_closest_supported_match.

Lemma get_incompatible_criteria_returns_iff_witness :
  get_incompatible_criteria
    {| imageVersion := None; machineType := Some "n2-custom-2-16384-ext";
       workerLocalSSDs := None |}
  = Raise (ValueError "invalid literal for int() with base 10: 'ext'").
Proof.
  apply (proj2 (get_incompatible_criteria_returns_iff _) "n2-custom-2-16384-ext");
    reflexivity.
Defined.

Lemma get_incompatible_criteria_keys_witness :
  let c := {| imageVersion := Some "1.5.35-debian10"; machineType := Some "n1-standard-8";
              workerLocalSSDs := Some 0 |} in
  let r := [("imageVersion", VStr "2.0+"); ("workerLocalSSDs", VInt 1);
            ("comments",
             VComments [("imageVersion", image_comment "1.5.35-debian10");
                        ("workerLocalSSDs", ssd_comment)])] in
  r = expected_report c
  /\ map fst r
     = (flagged_keys c ++ match flagged_keys c with [] => [] | _ => ["comments"] end)%list
  /\ map fst (expected_comments c) = flagged_keys c
  /\ (flagged_keys c <> [] ->
      dict_get "comments" r = Some (VComments (expected_comments c))).
Proof.
  intros c r. apply (get_incompatible_criteria_keys c r). reflexivity.
Defined.

Lemma get_incompatible_criteria_suggestions_pass_witness :
  get_incompatible_criteria
    (apply_suggestions
       {| imageVersion := Some "1.5.35-debian10"; machineType := Some "e2-highmem-16";
          workerLocalSSDs := Some 0 |}
       [("imageVersion", VStr "2.0+"); ("machineType", VStr "n1-highmem-16");
        ("workerLocalSSDs", VInt 1);
        ("comments",
         VComments [("imageVersion", image_comment "1.5.35-debian10");
                    ("machineType", machine_comment "e2-highmem-16" "n1-highmem-16");
                    ("workerLocalSSDs", ssd_comment)])])
  = Ret [].
Proof.
  apply get_incompatible_criteria_suggestions_pass. reflexivity.
Defined.

(* ===================================================================== *)
(** ** More on the command runner *)
(* ===================================================================== *)

Section RunnerFacts.

Variable subprocess_run : string -> CompletedProcess.

Lemma raised_for_text (c : CompletedProcess) (err : string) :
  stderr c = Text err -> raised_for c = cmd_error (args c) err.
Proof. intros H. unfold raised_for, cmd_error. now rewrite H. Qed.

Lemma check_unexpected_cause (self : CMDRunner) (c : CompletedProcess)
    (expected : Z) (msg_fail : option string) :
  returncode c <> expected ->
  _check_subprocess_result self c expected msg_fail
  = match fail_action self with
    | None =>
        Bail (if truthy msg_fail
              then match msg_fail with Some m => m | None => "" end
              else "Error invoking cmd")
             (raised_for c)
    | Some h => h (raised_for c) (Msg msg_fail)
    end.
Proof.
  intros H. unfold _check_subprocess_result.
  apply Z.eqb_neq in H. rewrite H. cbn [negb].
  destruct (fail_action self); [reflexivity |].
  destruct (truthy msg_fail); reflexivity.
Qed.

(** Whether the exit-code check of [run] lets the call go on. *)
Lemma check_passes_iff (self : CMDRunner) (c : CompletedProcess) (expected : Z)
    (fail_ok : bool) (msg_fail : option string) :
  returns (if negb fail_ok then _check_subprocess_result self c expected msg_fail
           else Ret tt) = true
  <-> fail_ok = true
      \/ returncode c = expected
      \/ exists h, fail_action self = Some h
                   /\ h (raised_for c) (Msg msg_fail) = Ret tt.
Proof.
  destruct fail_ok; cbn [negb].
  - split; [now left | reflexivity].
  - destruct (Z.eq_dec (returncode c) expected) as [He | Hne].
    + rewrite (check_expected_code _ _ _ _ He). split; [now (right; left) | reflexivity].
    + rewrite (check_unexpected_cause _ _ _ _ Hne).
      destruct (fail_action self) as [h|].
      * destruct (h _ _) as [[] | e | hd e] eqn:Eh; cbn [returns].
        -- split; [intros _; right; right; now exists h | reflexivity].
        -- split; [discriminate |].
           intros [H | [H | (h' & [= <-] & H)]]; congruence.
        -- split; [discriminate |].
           intros [H | [H | (h' & [= <-] & H)]]; congruence.
      * cbn [returns]. split; [discriminate |].
        intros [H | [H | (h' & H & _)]]; congruence.
Qed.

Lemma run_returns_iff (self : CMDRunner) (cmd : string) (expected : Z)
    (fail_ok : bool) (msg_fail : option string) :
  returns (fst (run subprocess_run self cmd expected fail_ok msg_fail)) = true
  <-> exists out err,
        stdout (subprocess_run cmd) = Text out
        /\ stderr (subprocess_run cmd) = Text err
        /\ (fail_ok = true
            \/ returncode (subprocess_run cmd) = expected
            \/ exists h, fail_action self = Some h
                         /\ h (cmd_error (args (subprocess_run cmd)) err) (Msg msg_fail)
                            = Ret tt).
Proof.
  pose proof (check_passes_iff self (subprocess_run cmd) expected fail_ok msg_fail) as Hc.
  unfold run.
  destruct (if negb fail_ok then _ else _) as [[] | e | h e]; cbn [returns] in Hc.
  - destruct (stdout (subprocess_run cmd)) as [out | r]; cbn [decode].
    + destruct (stderr (subprocess_run cmd)) as [err | r] eqn:Ee; cbn [decode fst returns].
      * split; [| reflexivity]. intros _. exists out, err.
        rewrite <- (raised_for_text _ _ Ee). repeat split. now apply Hc.
      * split; [discriminate |]. intros (out' & err' & _ & H & _). discriminate.
    + cbn [fst returns]. split; [discriminate |].
      intros (out' & err' & H & _). discriminate.
  - cbn [fst returns]. split; [discriminate |].
    intros (out & err & _ & He & H). rewrite <- (raised_for_text _ _ He) in H.
    apply Hc in H. discriminate.
  - cbn [fst returns]. split; [discriminate |].
    intros (out & err & _ & He & H). rewrite <- (raised_for_text _ _ He) in H.
    apply Hc in H. discriminate.
Qed.

Lemma run_value (self : CMDRunner) (cmd : string) (expected : Z)
    (fail_ok : bool) (msg_fail : option string) (out : string) :
  fst (run subprocess_run self cmd expected fail_ok msg_fail) = Ret out ->
  stdout (subprocess_run cmd) = Text out.
Proof.
  unfold run.
  destruct (if negb fail_ok then _ else _) as [[] | e | h e]; cbn [fst];
    try discriminate.
  destruct (stdout (subprocess_run cmd)) as [out' | r]; cbn [decode fst];
    try discriminate.
  destruct (stderr (subprocess_run cmd)) as [err | r]; cbn [decode fst];
    try discriminate.
  now intros [= ->].
Qed.

Lemma run_log (self : CMDRunner) (cmd : string) (expected : Z)
    (fail_ok : bool) (msg_fail : option string) :
  (returns (fst (run subprocess_run self cmd expected fail_ok msg_fail)) = false ->
   snd (run subprocess_run self cmd expected fail_ok msg_fail) = [])
  /\ (forall out err,
         stdout (subprocess_run cmd) = Text out ->
         stderr (subprocess_run cmd) = Text err ->
         snd (run subprocess_run self cmd expected fail_ok msg_fail)
         = if debug self
              && returns (fst (run subprocess_run self cmd expected fail_ok msg_fail))
           then [debug_message cmd out err]
           else []).
Proof.
  unfold run. split.
  - destruct (if negb fail_ok then _ else _) as [[] | e | h e]; cbn [fst snd returns];
      try reflexivity.
    destruct (decode (stdout (subprocess_run cmd))); cbn [fst snd returns];
      try reflexivity.
    destruct (decode (stderr (subprocess_run cmd))); cbn [fst snd returns];
      try reflexivity.
    discriminate.
  - intros out err -> ->. cbn [decode].
    destruct (if negb fail_ok then _ else _) as [[] | e | h e]; cbn [fst snd returns];
      destruct (debug self); reflexivity.
Qed.

End RunnerFacts.

(** X9.  [run] returns exactly when the captured standard output and
    standard error both decode as UTF-8 and, besides, failure is tolerated,
    or the exit code is the expected one, or an installed failure handler
    was handed the error of the command and returned; what it returns is
    then the text captured on standard output.  With no handler installed an
    unexpected exit code ends in the fatal path, under the failure message
    when that is a non-empty text and under "Error invoking cmd" otherwise,
    with the error of the command as cause when the standard error decodes.
    One debug record is written when the [debug] flag is set and the call
    returns, none otherwise. *)
Theorem run_outcome (subprocess_run : string -> CompletedProcess)
    (self : CMDRunner) (cmd : string) (expected : Z) (fail_ok : bool)
    (msg_fail : option string) :
  (returns (fst (run subprocess_run self cmd expected fail_ok msg_fail)) = true
   <-> exists out err,
         stdout (subprocess_run cmd) = Text out
         /\ stderr (subprocess_run cmd) = Text err
         /\ (fail_ok = true
             \/ returncode (subprocess_run cmd) = expected
             \/ exists h, fail_action self = Some h
                          /\ h (cmd_error (args (subprocess_run cmd)) err)
                               (Msg msg_fail) = Ret tt))
  /\ (forall out,
         fst (run subprocess_run self cmd expected fail_ok msg_fail) = Ret out ->
         stdout (subprocess_run cmd) = Text out)
  /\ (fail_ok = false -> returncode (subprocess_run cmd) <> expected ->
      fail_action self = None ->
      exists cause,
        fst (run subprocess_run self cmd expected fail_ok msg_fail)
        = Bail (if truthy msg_fail
                then match msg_fail with Some m => m | None => "" end
                else "Error invoking cmd")
               cause
        /\ forall err,
             stderr (subprocess_run cmd) = Text err ->
             cause = cmd_error (args (subprocess_run cmd)) err)
  /\ (returns (fst (run subprocess_run self cmd expected fail_ok msg_fail)) = false ->
      snd (run subprocess_run self cmd expected fail_ok msg_fail) = [])
  /\ (forall out err,
         stdout (subprocess_run cmd) = Text out ->
         stderr (subprocess_run cmd) = Text err ->
         snd (run subprocess_run self cmd expected fail_ok msg_fail)
         = if debug self
              && returns (fst (run subprocess_run self cmd expected fail_ok msg_fail))
           then [debug_message cmd out err]
           else []).
Proof.
  split; [apply run_returns_iff |].
  split; [intros out; apply run_value |].
  split; [| apply run_log].
  intros -> Hne Hf. exists (raised_for (subprocess_run cmd)). split.
  - unfold run. cbn [negb].
    rewrite (check_unexpected_cause _ _ _ _ Hne), Hf. reflexivity.
  - intros err. apply raised_for_text.
Qed.

Lemma run_outcome_witness :
  exists cause,
    fst (run failing_process default_runner "gsutil ls gs://bucket" 0 false
           (Some "Could not list the bucket"))
    = Bail "Could not list the bucket" cause
    /\ forall err,
         stderr (failing_process "gsutil ls gs://bucket") = Text err ->
         cause = cmd_error (args (failing_process "gsutil ls gs://bucket")) err.
Proof.
  apply (proj1 (proj2 (proj2 (run_outcome failing_process default_runner
                                "gsutil ls gs://bucket" 0 false
                                (Some "Could not list the bucket"))))).
  - reflexivity.
  - simpl. lia.
  - reflexivity.
Defined.

(** X10.  The storage commands run one shell command each:
    [gcloud_rm] runs [gsutil [-m] rm -f [-r] path], [gcloud_cp] runs
    [gsutil [-m] cp [-n] [-r] src dst] and [gcloud_cat] runs
    [gsutil cat path], with [-m] left out on a Mac.  Each returns exactly
    when [run] returns on that command with expected exit code 0, and
    [gcloud_cat] then returns the standard output of the command. *)
Theorem storage_commands (subprocess_run : string -> CompletedProcess)
    (is_mac : bool) (self : CMDRunner) :
  (forall remote_path is_dir fail_ok,
      returns (gcloud_rm subprocess_run is_mac self remote_path is_dir fail_ok)
      = returns (fst (run subprocess_run self (rm_command is_mac is_dir remote_path)
                        0 fail_ok None)))
  /\ (forall src_path dst_path overwrite is_dir fail_ok,
         returns (gcloud_cp subprocess_run is_mac self src_path dst_path
                    overwrite is_dir fail_ok)
         = returns (fst (run subprocess_run self
                           (cp_command is_mac overwrite is_dir src_path dst_path)
                           0 fail_ok None)))
  /\ (forall remote_path msg_fail fail_ok,
         gcloud_cat subprocess_run self remote_path msg_fail fail_ok
         = fst (run subprocess_run self ("gsutil cat " ++ remote_path) 0 fail_ok msg_fail))
  /\ (forall remote_path msg_fail fail_ok out,
         gcloud_cat subprocess_run self remote_path msg_fail fail_ok = Ret out ->
         stdout (subprocess_run ("gsutil cat " ++ remote_path)) = Text out).
Proof.
  split; [| split; [| split]].
  - intros remote_path is_dir fail_ok. unfold gcloud_rm, gsutil, rm_command.
    destruct is_mac, is_dir; cbn [negb];
      destruct (fst (run _ _ _ _ _ _)); reflexivity.
  - intros src_path dst_path overwrite is_dir fail_ok.
    unfold gcloud_cp, gsutil, cp_command.
    destruct is_mac, overwrite, is_dir; cbn [negb];
      destruct (fst (run _ _ _ _ _ _)); reflexivity.
  - reflexivity.
  - intros remote_path msg_fail fail_ok out H.
    now apply (run_value subprocess_run self _ 0 fail_ok msg_fail).
Qed.

Lemma storage_commands_witness :
  stdout (printing_process "ls: cannot access" ("gsutil cat " ++ "gs://b/f"))
  = Text "ls: cannot access".
Proof.
  apply (proj2 (proj2 (proj2 (storage_commands (printing_process "ls: cannot access")
                                false default_runner)))
           "gs://b/f" None false).
  reflexivity.
Defined.

(* ===================================================================== *)
(** ** Validation of the environment *)
(* ===================================================================== *)

(** X11.  [validate_dataproc_sdk] returns exactly when both [gcloud] and
    [gsutil] are found.  Otherwise it ends in the fatal path under
    "gcloud SDK check failed", naming the first missing tool, [gcloud]
    before [gsutil]; no exception escapes it. *)
Theorem validate_dataproc_sdk_outcome (is_system_tool : string -> bool) :
  validate_dataproc_sdk is_system_tool
  = if is_system_tool "gcloud" then
      if is_system_tool "gsutil" then Ret tt
      else Bail "gcloud SDK check failed" (missing_tool "gsutil")
    else Bail "gcloud SDK check failed" (missing_tool "gcloud").
Proof.
  unfold validate_dataproc_sdk, tool_list, check_tools.
  destruct (is_system_tool "gcloud"); [| reflexivity].
  destruct (is_system_tool "gsutil"); reflexivity.
Qed.

(* ===================================================================== *)
(** ** More on URIs, zones and regions *)
(* ===================================================================== *)

Section UriFacts.

Lemma split_append_any (sep : ascii) (a b : string) :
  split sep (a ++ String sep b) = (split sep a ++ split sep b)%list.
Proof.
  induction a as [|c r IH]; simpl.
  - now rewrite Ascii.eqb_refl.
  - destruct (Ascii.eqb c sep); [now rewrite IH |].
    rewrite IH. pose proof (split_nonempty sep r) as Hne.
    destruct (split sep r); [congruence | reflexivity].
Qed.

Lemma last4_append {A : Type} (front : list A) (a b c d : A) :
  last4 (front ++ [a; b; c; d]) = [a; b; c; d].
Proof.
  unfold last4. rewrite length_app. cbn [List.length].
  replace (List.length front + 4 - 4)%nat with (List.length front) by lia.
  rewrite skipn_app, skipn_all, Nat.sub_diag. reflexivity.
Qed.

Lemma has_char_append (c : ascii) (a b : string) :
  has_char c (a ++ b) = has_char c a || has_char c b.
Proof.
  induction a as [|x r IH]; simpl; [reflexivity |].
  now rewrite IH, orb_assoc.
Qed.

Lemma uri_segments (pre z m : string) :
  has_char "/" z = false -> has_char "/" m = false ->
  last4 (split "/" (pre ++ "/zones/" ++ z ++ "/machineTypes/" ++ m))
  = ["zones"; z; "machineTypes"; m].
Proof.
  intros Hz Hm.
  change (pre ++ "/zones/" ++ z ++ "/machineTypes/" ++ m)
    with (pre ++ String "/" ("zones" ++ String "/" (z ++ String "/"
            ("machineTypes" ++ String "/" m)))).
  rewrite split_append_any.
  rewrite (split_append "/" "zones") by reflexivity.
  rewrite (split_append "/" z) by assumption.
  rewrite (split_append "/" "machineTypes") by reflexivity.
  rewrite (split_segment "/" m) by assumption.
  apply last4_append.
Qed.

Lemma join_split (sep : ascii) (s : string) :
  join (String sep "") (split sep s) = s.
Proof.
  induction s as [|c r IH]; simpl; [reflexivity |].
  pose proof (split_nonempty sep r) as Hne.
  destruct (Ascii.eqb_spec c sep) as [-> | Hc].
  - destruct (split sep r) as [|h t]; [congruence |].
    change (join (String sep "") ("" :: h :: t))
      with (String sep (join (String sep "") (h :: t))).
    now rewrite IH.
  - destruct (split sep r) as [|h t]; [congruence |].
    destruct t as [|h' t'].
    + change (join (String sep "") [String c h]) with (String c h).
      change (join (String sep "") [h]) with h in IH. now rewrite IH.
    + change (join (String sep "") (String c h :: h' :: t'))
        with (String c (join (String sep "") (h :: h' :: t'))).
      now rewrite IH.
Qed.

Lemma startswith_append (a b : string) : startswith (a ++ b) a = true.
Proof. apply startswith_iff. now exists b. Qed.

Lemma region_prefix (zone p0 p1 : string) (rest : list string) :
  split "-" zone = p0 :: p1 :: rest ->
  startswith zone (p0 ++ "-" ++ p1) = true.
Proof.
  intros H. rewrite <- (join_split "-" zone) at 1. rewrite H.
  destruct rest as [|p2 rest']; cbn [join].
  - apply startswith_iff. exists "". now rewrite append_empty_r.
  - apply startswith_iff. exists ("-" ++ join "-" (p2 :: rest')).
    now rewrite !append_assoc.
Qed.

Lemma machine_info_returns (cli : CMDRunner) (uri region zone m : string) :
  machine_info_of_uri cli uri = Ret (region, zone, m) ->
  __decode_machine_type_uri cli uri = Ret (zone, m)
  /\ exists p0 p1 rest,
       split "-" zone = p0 :: p1 :: rest /\ region = p0 ++ "-" ++ p1.
Proof.
  unfold machine_info_of_uri.
  destruct (__decode_machine_type_uri cli uri) as [[z m'] | e | h e];
    cbn [bind fst snd]; try discriminate.
  destruct (split "-" z) as [|p0 [|p1 rest]] eqn:Es;
    cbn [index nth_error bind]; try discriminate.
  intros [= <- <- <-]. split; [reflexivity |].
  now exists p0, p1, rest.
Qed.

Lemma rindex_none (sep : ascii) (s : string) :
  rindex sep s = None <-> has_char sep s = false.
Proof.
  induction s as [|c r IH]; simpl; [tauto |].
  destruct (rindex sep r) as [i|].
  - split; [discriminate |]. intros H. apply orb_false_iff in H as [_ H].
    apply IH in H. discriminate.
  - destruct (Ascii.eqb c sep); simpl.
    + split; discriminate.
    + split; [intros _; now apply IH | reflexivity].
Qed.

Lemma rindex_last (sep : ascii) (pre z : string) :
  has_char sep z = false ->
  rindex sep (pre ++ String sep z) = Some (String.length pre).
Proof.
  intros Hz. induction pre as [|c r IH]; simpl.
  - apply rindex_none in Hz. now rewrite Hz, Ascii.eqb_refl.
  - now rewrite IH.
Qed.

Lemma drop_append (pre z : string) : drop (String.length pre) (pre ++ z) = z.
Proof. induction pre as [|c r IH]; simpl; [now destruct z | exact IH]. Qed.

Lemma drop_past (pre z : string) (c : ascii) :
  drop (S (String.length pre)) (pre ++ String c z) = z.
Proof. induction pre as [|x r IH]; simpl; [now destruct z | exact IH]. Qed.

Lemma rindex_some (sep : ascii) (s : string) (i : nat) :
  rindex sep s = Some i ->
  exists pre, s = pre ++ String sep (drop (S i) s)
              /\ String.length pre = i
              /\ has_char sep (drop (S i) s) = false.
Proof.
  revert i. induction s as [|c r IH]; simpl; [discriminate |]. intros i.
  destruct (rindex sep r) as [j|] eqn:Er.
  - intros [= <-]. destruct (IH j eq_refl) as (pre & Hs & Hl & Hz).
    exists (String c pre). split; [| split].
    + cbn [append]. f_equal. exact Hs.
    + cbn [String.length]. now rewrite Hl.
    + exact Hz.
  - destruct (Ascii.eqb_spec c sep) as [-> | Hc]; [| discriminate].
    intros [= <-]. exists "".
    assert (Hd : drop 0 r = r) by now destruct r.
    rewrite Hd. split; [reflexivity | split; [reflexivity |]].
    now apply rindex_none.
Qed.

Lemma decode_round_trip (cli : CMDRunner) (pre z m : string) :
  has_char "/" z = false -> has_char "/" m = false ->
  __decode_machine_type_uri cli (pre ++ "/zones/" ++ z ++ "/machineTypes/" ++ m)
  = Ret (z, m).
Proof.
  intros Hz Hm. apply decode_layout. now apply uri_segments.
Qed.

End UriFacts.

(** X12.  Decoding is the inverse of building the URI: for every prefix,
    every zone and every machine type without a slash, the URI
    [prefix/zones/zone/machineTypes/type] decodes to that zone and machine
    type, whatever failure handler is installed. *)
Theorem decode_machine_type_uri_round_trip (cli : CMDRunner) (pre z m : string) :
  has_char "/" z = false -> has_char "/" m = false ->
  __decode_machine_type_uri cli (pre ++ "/zones/" ++ z ++ "/machineTypes/" ++ m)
  = Ret (z, m).
Proof. exact (decode_round_trip cli pre z m). Qed.

Lemma decode_machine_type_uri_round_trip_witness :
  __decode_machine_type_uri default_runner
    ("https://www.googleapis.com/compute/v1/projects/demo" ++ "/zones/"
     ++ "asia-east1-b" ++ "/machineTypes/" ++ "n1-highmem-32")
  = Ret ("asia-east1-b", "n1-highmem-32").
Proof.
  apply decode_machine_type_uri_round_trip; reflexivity.
Defined.

(** X13.  The machine information of a node: for a URI
    [prefix/zones/a-b-c/machineTypes/type] it is the region [a-b], the zone
    [a-b-c] and the machine type.  Whenever it is returned, the region is the
    first two hyphen-separated segments of the zone and so the zone begins
    with it.  A zone without a hyphen ends in [IndexError], although the URI
    itself decodes. *)
Theorem machine_info_of_uri_region :
  (forall cli pre a b c m,
      segment a -> segment b -> segment c ->
      has_char "/" (a ++ "-" ++ b ++ "-" ++ c) = false -> has_char "/" m = false ->
      machine_info_of_uri cli
        (pre ++ "/zones/" ++ (a ++ "-" ++ b ++ "-" ++ c) ++ "/machineTypes/" ++ m)
      = Ret (a ++ "-" ++ b, a ++ "-" ++ b ++ "-" ++ c, m))
  /\ (forall cli uri region zone m,
         machine_info_of_uri cli uri = Ret (region, zone, m) ->
         __decode_machine_type_uri cli uri = Ret (zone, m)
         /\ startswith zone region = true
         /\ exists p0 p1 rest,
              split "-" zone = p0 :: p1 :: rest /\ region = p0 ++ "-" ++ p1)
  /\ (forall cli pre z m,
         segment z -> has_char "/" z = false -> has_char "/" m = false ->
         machine_info_of_uri cli (pre ++ "/zones/" ++ z ++ "/machineTypes/" ++ m)
         = Raise (IndexError "list index out of range")).
Proof.
  split; [| split].
  - intros cli pre a b c m Ha Hb Hc Hz Hm. unfold machine_info_of_uri.
    rewrite (decode_round_trip cli pre _ m Hz Hm).
    cbn [bind fst snd]. rewrite (split_three a b c Ha Hb Hc). reflexivity.
  - intros cli uri region zone m H.
    destruct (machine_info_returns _ _ _ _ _ H) as (Hd & p0 & p1 & rest & Hs & ->).
    split; [assumption |]. split; [now apply (region_prefix zone p0 p1 rest) |].
    now exists p0, p1, rest.
  - intros cli pre z m Hs Hz Hm. unfold machine_info_of_uri.
    rewrite (decode_round_trip cli pre z m Hz Hm).
    cbn [bind fst snd]. unfold segment in Hs.
    rewrite (split_segment "-" z Hs). reflexivity.
Qed.

Lemma machine_info_of_uri_region_witness :
  machine_info_of_uri default_runner
    ("projects/demo" ++ "/zones/" ++ ("us" ++ "-" ++ "central1" ++ "-" ++ "a")
     ++ "/machineTypes/" ++ "n1-standard-8")
  = Ret ("us" ++ "-" ++ "central1", "us" ++ "-" ++ "central1" ++ "-" ++ "a",
         "n1-standard-8").
Proof.
  apply (proj1 machine_info_of_uri_region); reflexivity.
Defined.

(** X14.  The zone of a zone URI is what follows its last slash: the call
    returns [z] exactly when the URI is some prefix, a slash and [z], with no
    slash in [z]; a URI without any slash ends in [ValueError]. *)
Theorem zone_of_uri_last_segment (zoneuri : string) :
  (forall z,
      zone_of_uri zoneuri = Ret z
      <-> (exists pre, zoneuri = pre ++ "/" ++ z) /\ has_char "/" z = false)
  /\ (zone_of_uri zoneuri = Raise (ValueError "substring not found")
      <-> has_char "/" zoneuri = false).
Proof.
  unfold zone_of_uri. split.
  - intros z. split.
    + destruct (rindex "/" zoneuri) as [i|] eqn:Er; [| discriminate].
      intros [= <-]. rewrite Nat.add_1_r.
      destruct (rindex_some _ _ _ Er) as (pre & Hs & _ & Hz).
      split; [now exists pre | assumption].
    + intros [[pre ->] Hz].
      change (pre ++ "/" ++ z) with (pre ++ String "/" z).
      rewrite (rindex_last "/" pre z Hz), Nat.add_1_r.
      now rewrite drop_past.
  - destruct (rindex "/" zoneuri) as [i|] eqn:Er.
    + split; [discriminate |]. intros H. apply rindex_none in H. congruence.
    + split; [intros _; now apply rindex_none | reflexivity].
Qed.

(* ===================================================================== *)
(** ** Dictionaries: the Spark properties and the shadow mutators *)
(* ===================================================================== *)

Section DictFacts.

Context {V : Type}.

Lemma dict_get_set_same (k : string) (v : V) (d : list (string * V)) :
  dict_get k (dict_set k v d) = Some v.
Proof.
  induction d as [|[k' v'] rest IH]; simpl.
  - now rewrite String.eqb_refl.
  - destruct (String.eqb k' k) eqn:E; simpl.
    + now rewrite String.eqb_refl.
    + now rewrite E.
Qed.

Lemma dict_get_set_other (k k0 : string) (v : V) (d : list (string * V)) :
  k0 <> k -> dict_get k0 (dict_set k v d) = dict_get k0 d.
Proof.
  intros Hne. induction d as [|[k' v'] rest IH]; simpl.
  - apply String.eqb_neq in Hne. rewrite String.eqb_sym in Hne. now rewrite Hne.
  - destruct (String.eqb_spec k' k) as [-> | Hk]; simpl.
    + assert (Hk0 : String.eqb k k0 = false)
        by (apply String.eqb_neq; congruence).
      now rewrite Hk0.
    + destruct (String.eqb k' k0); [reflexivity | exact IH].
Qed.

Lemma dict_set_keys (k : string) (v : V) (d : list (string * V)) :
  map fst (dict_set k v d)
  = if existsb (String.eqb k) (map fst d) then map fst d else (map fst d ++ [k])%list.
Proof.
  induction d as [|[k' v'] rest IH]; simpl; [reflexivity |].
  destruct (String.eqb_spec k' k) as [-> | Hk]; simpl.
  - now rewrite String.eqb_refl.
  - assert (Hk' : String.eqb k k' = false) by (apply String.eqb_neq; congruence).
    rewrite Hk', IH. simpl. now destruct (existsb (String.eqb k) (map fst rest)).
Qed.

Lemma dict_set_nodup (k : string) (v : V) (d : list (string * V)) :
  NoDup (map fst d) -> NoDup (map fst (dict_set k v d)).
Proof.
  intros Hd. rewrite dict_set_keys.
  destruct (existsb (String.eqb k) (map fst d)) eqn:E; [assumption |].
  apply NoDup_app; [assumption | repeat constructor; intros [] |].
  intros x Hx [Hk | []]. subst x.
  assert (existsb (String.eqb k) (map fst d) = true)
    by (apply existsb_exists; exists k; split; [assumption | apply String.eqb_refl]).
  congruence.
Qed.

Lemma dict_get_absent (k : string) (d : list (string * V)) :
  ~ In k (map fst d) -> dict_get k d = None.
Proof.
  induction d as [|[k' v'] rest IH]; simpl; [reflexivity |].
  intros H. destruct (String.eqb_spec k' k) as [-> | Hk]; [tauto |].
  apply IH. tauto.
Qed.

Lemma replace_first_found (old new s : string) :
  startswith s old = true ->
  replace_first old new s = new ++ drop (String.length old) s.
Proof. intros H. destruct s; simpl; now rewrite H. Qed.

Lemma replace_prefix (p k : string) : replace_first p "" (p ++ k) = k.
Proof.
  rewrite replace_first_found by apply startswith_append.
  simpl. apply drop_append.
Qed.

Lemma filter_loop_lookup (items acc : list (string * V)) (k : string) :
  NoDup (map fst items) ->
  dict_get k (filter_loop items acc)
  = match dict_get ("spark:" ++ k) items with
    | Some v => Some v
    | None => dict_get k acc
    end.
Proof.
  revert acc. induction items as [|[key value] rest IH]; intros acc Hnd;
    [reflexivity |].
  inversion Hnd as [|x l Hnotin Hrest]; subst.
  cbn [filter_loop dict_get].
  destruct (startswith key "spark:") eqn:Ep.
  - apply startswith_iff in Ep as [k0 ->].
    rewrite (replace_prefix "spark:" k0), (IH _ Hrest).
    destruct (String.eqb_spec ("spark:" ++ k0) ("spark:" ++ k)) as [He | Hne].
    + injection He as ->. rewrite (dict_get_absent _ _ Hnotin).
      apply dict_get_set_same.
    + rewrite dict_get_set_other by congruence. reflexivity.
  - rewrite (IH _ Hrest).
    destruct (String.eqb_spec key ("spark:" ++ k)) as [-> | Hne]; [| reflexivity].
    rewrite startswith_append in Ep. discriminate.
Qed.

Lemma filter_loop_nodup (items acc : list (string * V)) :
  NoDup (map fst acc) -> NoDup (map fst (filter_loop items acc)).
Proof.
  revert acc. induction items as [|[key value] rest IH]; intros acc Hacc;
    [assumption |].
  cbn [filter_loop]. destruct (startswith key "spark:"); apply IH;
    [now apply dict_set_nodup | assumption].
Qed.

End DictFacts.

(** X15.  [filter_spark_properties] keeps exactly the properties whose key
    begins with [spark:] and strips that prefix: in the result, the value of
    a key [k] is the value the original mapping has for [spark:k], and a key
    is absent when [spark:k] is.  The keys of the result are distinct. *)
Theorem filter_spark_properties_lookup {V : Type}
    (original_dict : list (string * V)) (k : string) :
  NoDup (map fst original_dict) ->
  dict_get k (filter_spark_properties original_dict)
  = dict_get ("spark:" ++ k) original_dict
  /\ NoDup (map fst (filter_spark_properties original_dict)).
Proof.
  intros Hnd. unfold filter_spark_properties. split.
  - rewrite (filter_loop_lookup _ _ _ Hnd).
    now destruct (dict_get ("spark:" ++ k) original_dict).
  - apply filter_loop_nodup. constructor.
Qed.

Lemma filter_spark_properties_lookup_witness :
  dict_get "spark.executor.memory"
    (filter_spark_properties
       [("spark:spark.executor.memory", "4g"); ("other.key", "x");
        ("yarn:yarn.nodemanager.resource.memory-mb", "8192")])
  = dict_get ("spark:" ++ "spark.executor.memory")
      [("spark:spark.executor.memory", "4g"); ("other.key", "x");
       ("yarn:yarn.nodemanager.resource.memory-mb", "8192")]
  /\ NoDup (map fst
              (filter_spark_properties
                 [("spark:spark.executor.memory", "4g"); ("other.key", "x");
                  ("yarn:yarn.nodemanager.resource.memory-mb", "8192")])).
Proof.
  apply filter_spark_properties_lookup.
  repeat constructor; simpl; intuition discriminate.
Defined.

Section Mutators.

Lemma set_field_returns (props : option (list (string * yaml)))
    (node_type field x : string) (props' : list (string * yaml)) :
  set_container_field props node_type field x = inr props' <->
  exists entries ce ne,
    props = Some entries
    /\ dict_get "config" entries = Some (YDict ce)
    /\ dict_get (node_type ++ "Config") ce = Some (YDict ne)
    /\ props'
       = dict_set "config"
           (YDict (dict_set (node_type ++ "Config")
                     (YDict (dict_set field (YStr x) ne)) ce))
           entries.
Proof.
  unfold set_container_field, subscript, assign. split.
  - destruct props as [entries|]; [| discriminate].
    destruct (dict_get "config" entries) as [config|] eqn:Ec;
      cbn [and_then]; [| discriminate].
    destruct config as [| | | | items | ce]; cbn [and_then]; try discriminate.
    destruct (dict_get (node_type ++ "Config") ce) as [node|] eqn:En;
      cbn [and_then]; [| discriminate].
    destruct node as [| | | | items | ne]; cbn [and_then]; try discriminate.
    intros [= <-]. now exists entries, ce, ne.
  - intros (entries & ce & ne & -> & Hc & Hn & ->).
    rewrite Hc. cbn [and_then]. rewrite Hn. reflexivity.
Qed.

Lemma set_field_lookup (props : option (list (string * yaml)))
    (node_type field x : string) (props' : list (string * yaml)) :
  set_container_field props node_type field x = inr props' ->
  get_value (Some props') ["config"; node_type ++ "Config"; field] = Some (YStr x)
  /\ forall nk f,
       nk <> node_type ++ "Config" \/ f <> field ->
       get_value (Some props') ["config"; nk; f] = get_value props ["config"; nk; f].
Proof.
  intros H. apply set_field_returns in H as (entries & ce & ne & -> & Hc & Hn & ->).
  unfold get_value. cbn [lookup]. rewrite dict_get_set_same, Hc. split.
  - now rewrite !dict_get_set_same.
  - intros nk f Hne.
    destruct (string_dec nk (node_type ++ "Config")) as [-> | Hnk].
    + rewrite dict_get_set_same, Hn.
      destruct Hne as [Hne | Hne]; [congruence |].
      now rewrite dict_get_set_other.
    + now rewrite dict_get_set_other.
Qed.

Lemma set_field_possible (props : option (list (string * yaml)))
    (node_type field x : string) :
  (exists props', set_container_field props node_type field x = inr props')
  <-> exists ne, get_value props ["config"; node_type ++ "Config"] = Some (YDict ne).
Proof.
  split.
  - intros [props' H].
    apply set_field_returns in H as (entries & ce & ne & -> & Hc & Hn & _).
    exists ne. unfold get_value. cbn [lookup]. now rewrite Hc, Hn.
  - intros [ne H]. destruct props as [entries|]; [| discriminate].
    unfold get_value in H. cbn [lookup] in H.
    destruct (dict_get "config" entries) as [config|] eqn:Ec; [| discriminate].
    destruct config as [| | | | items | ce]; try discriminate.
    destruct (dict_get (node_type ++ "Config") ce) as [node|] eqn:En; [| discriminate].
    injection H as ->. eexists. apply set_field_returns.
    exists entries, ce, ne. repeat split; assumption.
Qed.

End Mutators.

(** X16.  After [set_container_region] (or [set_container_zone]) has
    returned, the lookup of that node's [region] (or [zone]) under [config]
    answers the injected value, and the lookup of every other field of every
    node under [config] answers what it answered before. *)
Theorem set_container_region_zone_lookup
    (props : option (list (string * yaml))) (node_type x : string)
    (props' : list (string * yaml)) :
  (set_container_region props node_type x = inr props' ->
   get_value (Some props') ["config"; node_type ++ "Config"; "region"] = Some (YStr x)
   /\ forall nk f,
        nk <> node_type ++ "Config" \/ f <> "region" ->
        get_value (Some props') ["config"; nk; f] = get_value props ["config"; nk; f])
  /\ (set_container_zone props node_type x = inr props' ->
      get_value (Some props') ["config"; node_type ++ "Config"; "zone"] = Some (YStr x)
      /\ forall nk f,
           nk <> node_type ++ "Config" \/ f <> "zone" ->
           get_value (Some props') ["config"; nk; f] = get_value props ["config"; nk; f]).
Proof.
  split; apply set_field_lookup.
Qed.

(** X17.  The shadow mutators succeed exactly on a document that has a
    mapping for the node under [config]; on a document that is [None], or
    lacks [config] or the node, nothing is stored.  Once the region and the
    zone of a node have been injected, in either order, the machine
    information of the node is the injected region and zone with the machine
    type the document already held. *)
Theorem set_container_region_zone_machine_info
    (props : option (list (string * yaml))) (node_type : string) :
  (forall region,
      (exists props', set_container_region props node_type region = inr props')
      <-> exists ne, get_value props ["config"; node_type ++ "Config"] = Some (YDict ne))
  /\ (forall zone,
         (exists props', set_container_zone props node_type zone = inr props')
         <-> exists ne, get_value props ["config"; node_type ++ "Config"] = Some (YDict ne))
  /\ (forall region zone props1 props2 machine_type,
         get_value props ["config"; node_type ++ "Config"; "machineTypeUri"]
         = Some machine_type ->
         (set_container_region props node_type region = inr props1
          /\ set_container_zone (Some props1) node_type zone = inr props2)
         \/ (set_container_zone props node_type zone = inr props1
             /\ set_container_region (Some props1) node_type region = inr props2) ->
         _get_machine_info_for_node (Some props2) node_type
         = Some (YStr region, YStr zone, machine_type)).
Proof.
  split; [intros region; apply set_field_possible |].
  split; [intros zone; apply set_field_possible |].
  intros region zone props1 props2 machine_type Hm [[H1 H2] | [H1 H2]];
    unfold set_container_region, set_container_zone in H1, H2;
    apply set_field_lookup in H1 as [H1a H1b];
    apply set_field_lookup in H2 as [H2a H2b];
    unfold _get_machine_info_for_node.
  - rewrite H2b, H1b, Hm by (right; discriminate).
    rewrite H2a, H2b, H1a by (right; discriminate). reflexivity.
  - rewrite H2b, H1b, Hm by (right; discriminate).
    rewrite H2b, H1a, H2a by (right; discriminate). reflexivity.
Qed.

Lemma set_container_region_zone_lookup_witness :
  get_value
    (Some [("config",
            YDict [("masterConfig", YDict [("machineTypeUri", YStr "n1-standard-4")]);
                   ("workerConfig",
                    YDict [("numInstances", YInt 2);
                           ("machineTypeUri", YStr "n1-standard-8");
                           ("region", YStr "us-central1")])])])
    ["config"; "worker" ++ "Config"; "region"] = Some (YStr "us-central1")
  /\ forall nk f,
       nk <> "worker" ++ "Config" \/ f <> "region" ->
       get_value
         (Some [("config",
                 YDict [("masterConfig", YDict [("machineTypeUri", YStr "n1-standard-4")]);
                        ("workerConfig",
                         YDict [("numInstances", YInt 2);
                                ("machineTypeUri", YStr "n1-standard-8");
                                ("region", YStr "us-central1")])])])
         ["config"; nk; f]
       = get_value (Some bare_capture) ["config"; nk; f].
Proof.
  apply (proj1 (set_container_region_zone_lookup (Some bare_capture) "worker"
                  "us-central1" _)).
  reflexivity.
Defined.

Lemma set_container_region_zone_machine_info_witness :
  _get_machine_info_for_node
    (Some [("config",
            YDict [("masterConfig", YDict [("machineTypeUri", YStr "n1-standard-4")]);
                   ("workerConfig",
                    YDict [("numInstances", YInt 2);
                           ("machineTypeUri", YStr "n1-standard-8");
                           ("region", YStr "us-central1");
                           ("zone", YStr "us-central1-a")])])])
    "worker"
  = Some (YStr "us-central1", YStr "us-central1-a", YStr "n1-standard-8").
Proof.
  apply (proj2 (proj2 (set_container_region_zone_machine_info (Some bare_capture) "worker"))
           "us-central1" "us-central1-a"
           [("config",
             YDict [("masterConfig", YDict [("machineTypeUri", YStr "n1-standard-4")]);
                    ("workerConfig",
                     YDict [("numInstances", YInt 2);
                            ("machineTypeUri", YStr "n1-standard-8");
                            ("region", YStr "us-central1")])])]).
  - reflexivity.
  - left. split; reflexivity.
Defined.

(* ===================================================================== *)
(** ** More on the GPU queries *)
(* ===================================================================== *)

Section GpuQueries.

Lemma gpu_device_returns (cli : CMDRunner) (text : string) (res : option string) :
  gpu_device_of_response cli text = Ret res ->
  match res with
  | Some g =>
      exists line rest, splitlines text = line :: rest
                        /\ parse_supported_gpu line = Some g
  | None => exists h, fail_action cli = Some h
  end.
Proof.
  unfold gpu_device_of_response, call_fail_action.
  destruct (splitlines text) as [|line rest]; cbn [List.length].
  - cbn. destruct (fail_action cli) as [h|]; [| discriminate].
    destruct (h _ _) as [[] | |]; cbn [bind]; try discriminate.
    intros [= <-]. now exists h.
  - replace (Z.of_nat (S (List.length rest)) =? 0) with false
      by (symmetry; apply Z.eqb_neq; lia).
    cbn [bind]. destruct (parse_supported_gpu line) as [g|] eqn:Ep.
    + cbn [bind]. intros [= <-]. now exists line, rest.
    + destruct (fail_action cli) as [h|]; [| discriminate].
      destruct (h _ _) as [[] | |]; cbn [bind]; try discriminate.
      intros [= <-]. now exists h.
Qed.

Lemma parsed_gpu_known (line g : string) :
  parse_supported_gpu line = Some g ->
  In g supported_list /\ occurs g (upper line).
Proof.
  intros H. apply first_found_some in H as (before & after & Hs & Ho & _).
  split; [| assumption]. rewrite Hs. apply in_or_app. right. now left.
Qed.

Lemma bind_returns {A B : Type} (c : outcome A) (k : A -> outcome B) (b : B) :
  (x <- c ;; k x) = Ret b -> exists a, c = Ret a /\ k a = Ret b.
Proof. destruct c as [a | |]; cbn [bind]; try discriminate. now exists a. Qed.

Lemma findall_values (text : string) (g : string * string) :
  In g (findall text) -> exists n, parse_int (fst g) = Some n /\ 0 <= n.
Proof.
  intros Hg. destruct (findall_fuel_readings _ _ _ Hg) as (_ & Hd & Hdig & _).
  now apply parse_int_digits.
Qed.

Lemma gpu_info_returns (cli : CMDRunner) (text : string) (n mem : Z) :
  gpu_info_of_response cli text = Ret (n, mem) ->
  n = Z.of_nat (List.length (findall text))
  /\ 0 <= mem
  /\ (forall m, In m (readings text) -> m <= mem)
  /\ (n = 0 -> mem = 0 /\ exists h, fail_action cli = Some h).
Proof.
  unfold gpu_info_of_response. intros H.
  apply bind_returns in H as ([] & Hcall & H).
  apply bind_returns in H as (mem' & Hloop & H). injection H as <- <-.
  destruct (mem_loop_max (findall text) 0 (findall_values text))
    as (mem0 & Hm & Hge & Hall & _).
  rewrite Hm in Hloop. injection Hloop as <-.
  split; [reflexivity |]. split; [assumption |]. split.
  - intros m Hin. unfold readings in Hin. apply in_map_iff in Hin as (g & <- & Hg).
    now apply Hall.
  - intros Hz. destruct (findall text) as [|g rest] eqn:Ef; [| simpl in Hz; lia].
    cbn in Hm. injection Hm as <-. split; [reflexivity |].
    cbn in Hcall. unfold call_fail_action in Hcall.
    destruct (fail_action cli) as [h|]; [now exists h | discriminate].
Qed.

Lemma span_append (p : ascii -> bool) (a : string) (c : ascii) (b : string) :
  all_chars p a = true -> p c = false ->
  span p (a ++ String c b) = (a, String c b).
Proof.
  intros Ha Hc. induction a as [|x r IH]; simpl in *.
  - now rewrite Hc.
  - apply andb_true_iff in Ha as [Hx Hr]. now rewrite Hx, (IH Hr).
Qed.

Lemma match_here_reading (d rest : string) :
  numeral d ->
  match_here (d ++ " MiB" ++ rest) = Some ((d, "MiB"), rest).
Proof.
  intros [Hne Hd]. unfold match_here.
  change (d ++ " MiB" ++ rest) with (d ++ String " " ("MiB" ++ rest)).
  rewrite (span_append is_digit d " " _ Hd eq_refl).
  destruct d as [|c r]; [congruence |]. reflexivity.
Qed.

Lemma findall_reading (d rest : string) :
  numeral d ->
  findall (d ++ " MiB" ++ rest) = (d, "MiB") :: findall rest.
Proof.
  intros Hn. pose proof (match_here_reading d rest Hn) as Hm.
  destruct Hn as [Hne _]. destruct d as [|c r]; [congruence |].
  cbn [append] in *. rewrite findall_step. now rewrite Hm.
Qed.

Lemma findall_newline (s : string) : findall (nl ++ s) = findall s.
Proof. unfold nl. cbn [append]. now rewrite findall_step. Qed.

Lemma findall_memory_lines (sizes : list string) :
  Forall numeral sizes ->
  findall (memory_lines sizes) = map (fun d => (d, "MiB")) sizes.
Proof.
  unfold memory_lines. induction 1 as [|d rest Hd Hrest IH]; [reflexivity |].
  destruct rest as [|d2 rest'].
  - cbn [map join]. rewrite <- (append_empty_r (d ++ " MiB")), append_assoc.
    now rewrite (findall_reading d "" Hd).
  - change (join nl (map (fun d => d ++ " MiB") (d :: d2 :: rest')))
      with ((d ++ " MiB") ++ nl ++ join nl (map (fun d => d ++ " MiB") (d2 :: rest'))).
    rewrite append_assoc, (findall_reading d _ Hd), findall_newline, IH.
    reflexivity.
Qed.

End GpuQueries.

(** X18.  Whenever [get_worker_gpu_device] returns a device name, that name
    is one of T4, V100, K80, A100, P100, it is the name recognised in the
    first line of the response, and it occurs in that line in upper case.
    It returns no name only when a failure handler is installed. *)
Theorem get_worker_gpu_device_returns
    (subprocess_run : string -> CompletedProcess) (cli : CMDRunner)
    (zone worker : string) (res : option string) :
  get_worker_gpu_device subprocess_run cli zone worker = Ret res ->
  match res with
  | Some g =>
      In g supported_list
      /\ exists text line rest,
           stdout (subprocess_run ("gcloud " ++ gpu_name_cmd zone worker)) = Text text
           /\ splitlines text = line :: rest
           /\ parse_supported_gpu line = Some g
           /\ occurs g (upper line)
  | None => exists h, fail_action cli = Some h
  end.
Proof.
  unfold get_worker_gpu_device, gcloud. intros H.
  apply bind_returns in H as (text & Hrun & H).
  apply run_value in Hrun.
  apply gpu_device_returns in H. destruct res as [g|]; [| assumption].
  destruct H as (line & rest & Hl & Hp).
  destruct (parsed_gpu_known line g Hp) as [Hin Ho].
  split; [assumption |]. now exists text, line, rest.
Qed.

Lemma get_worker_gpu_device_returns_witness :
  In "T4" supported_list
  /\ exists text line rest,
       stdout (printing_process two_device_response
                 ("gcloud " ++ gpu_name_cmd "us-central1-a" "cluster-w-0")) = Text text
       /\ splitlines text = line :: rest
       /\ parse_supported_gpu line = Some "T4"
       /\ occurs "T4" (upper line).
Proof.
  apply (get_worker_gpu_device_returns (printing_process two_device_response)
           default_runner "us-central1-a" "cluster-w-0" (Some "T4")).
  vm_compute. reflexivity.
Defined.

(** X19.  Whenever [get_worker_gpu_info] returns a count and a memory size,
    the count is the number of matches in the response, the memory is not
    negative and is at least every reading; a count of 0 comes with memory 0
    and is only returned when a failure handler is installed. *)
Theorem get_worker_gpu_info_returns
    (subprocess_run : string -> CompletedProcess) (cli : CMDRunner)
    (zone worker : string) (n mem : Z) :
  get_worker_gpu_info subprocess_run cli zone worker = Ret (n, mem) ->
  exists text,
    stdout (subprocess_run ("gcloud " ++ gpu_memory_cmd zone worker)) = Text text
    /\ n = Z.of_nat (List.length (findall text))
    /\ 0 <= mem
    /\ (forall m, In m (readings text) -> m <= mem)
    /\ (n = 0 -> mem = 0 /\ exists h, fail_action cli = Some h).
Proof.
  unfold get_worker_gpu_info, gcloud. intros H.
  apply bind_returns in H as (text & Hrun & H).
  apply run_value in Hrun. exists text. split; [assumption |].
  now apply gpu_info_returns.
Qed.

Lemma get_worker_gpu_info_returns_witness :
  exists text,
    stdout (printing_process sample_memory_response
              ("gcloud " ++ gpu_memory_cmd "us-central1-a" "cluster-w-0")) = Text text
    /\ 2 = Z.of_nat (List.length (findall text))
    /\ 0 <= 15109
    /\ (forall m, In m (readings text) -> m <= 15109)
    /\ (2 = 0 -> 15109 = 0 /\ exists h, fail_action default_runner = Some h).
Proof.
  apply (get_worker_gpu_info_returns (printing_process sample_memory_response)
           default_runner "us-central1-a" "cluster-w-0" 2 15109).
  vm_compute. reflexivity.
Defined.

(** X20.  On a response in its plain form, one line per GPU, each line a
    number, a blank and [MiB], the count is the number of lines and the
    memory is the largest of the numbers, whatever handler is installed. *)
Theorem gpu_info_of_plain_response (cli : CMDRunner) (sizes : list string) :
  Forall numeral sizes -> sizes <> [] ->
  exists mem,
    gpu_info_of_response cli (memory_lines sizes)
    = Ret (Z.of_nat (List.length sizes), mem)
    /\ (exists d, In d sizes /\ parse_int d = Some mem)
    /\ (forall d n, In d sizes -> parse_int d = Some n -> n <= mem).
Proof.
  intros Hs Hne.
  pose proof (findall_memory_lines sizes Hs) as Hf.
  destruct (gpu_info_of_matches cli (memory_lines sizes)) as (mem & Hr & Hin & Hmax & _).
  { rewrite Hf. destruct sizes; [congruence | discriminate]. }
  exists mem. rewrite Hf, length_map in Hr. split; [assumption |].
  unfold readings in Hin, Hmax. rewrite Hf, map_map in Hin, Hmax. cbn [fst] in Hin, Hmax.
  split.
  - apply in_map_iff in Hin as (d & Hd & Hind). exists d. split; [assumption |].
    rewrite Forall_forall in Hs. destruct (Hs d Hind) as [Hne' Hdig].
    destruct (parse_int_digits d Hne' Hdig) as (n & Hn & _).
    rewrite Hn in Hd. now subst.
  - intros d n Hind Hn. apply Hmax. apply in_map_iff. exists d.
    split; [now rewrite Hn | assumption].
Qed.

Lemma gpu_info_of_plain_response_witness :
  exists mem,
    gpu_info_of_response default_runner (memory_lines ["15109"; "40536"; "15109"])
    = Ret (Z.of_nat (List.length ["15109"; "40536"; "15109"]), mem)
    /\ (exists d, In d ["15109"; "40536"; "15109"] /\ parse_int d = Some mem)
    /\ (forall d n, In d ["15109"; "40536"; "15109"] -> parse_int d = Some n -> n <= mem).
Proof.
  apply gpu_info_of_plain_response.
  - repeat constructor; discriminate.
  - discriminate.
Defined.

(* ===================================================================== *)
(** ** Defaults of the node lookups *)
(* ===================================================================== *)

(** X21.  A document that carries no local-SSD count for the workers, the
    key missing or null, is read as having 0 local SSDs, and every report
    that [check_all_incompatibilities] returns for it flags workerLocalSSDs
    with the suggestion 1; a missing instance count is read as 1.  A count
    that is present as an integer is returned as it is. *)
Theorem node_lookup_defaults (props : option (list (string * yaml))) :
  (is_none (get_value_silent props
              ["config"; "worker" ++ "Config"; "diskConfig"; "numLocalSsds"]) = true ->
   get_worker_local_ssds props = Ret 0
   /\ forall worker_machine image_version r,
        check_all_incompatibilities props worker_machine image_version = Ret r ->
        dict_get "workerLocalSSDs" r = Some (VInt 1))
  /\ (is_none (get_value_silent props
                 ["config"; "worker" ++ "Config"; "numInstances"]) = true ->
      get_worker_vm_instances props = Ret 1)
  /\ (forall n,
         get_value_silent props
           ["config"; "worker" ++ "Config"; "diskConfig"; "numLocalSsds"] = Some (YInt n) ->
         get_worker_local_ssds props = Ret n)
  /\ (forall n,
         get_value_silent props ["config"; "worker" ++ "Config"; "numInstances"]
         = Some (YInt n) ->
         get_worker_vm_instances props = Ret n).
Proof.
  unfold get_worker_local_ssds, get_worker_vm_instances,
    __get_local_ssds_for_node, __get_number_instances.
  split; [| split; [| split]].
  - intros H. rewrite H. split; [reflexivity |].
    intros worker_machine image_version r Hr.
    unfold check_all_incompatibilities, get_worker_local_ssds,
      __get_local_ssds_for_node in Hr.
    rewrite H in Hr. cbn [bind] in Hr.
    apply report_closed_form in Hr. subst r.
    unfold expected_report, expected_entries, expected_comments,
      flag_image, flag_machine, flag_ssds.
    cbn [imageVersion machineType workerLocalSSDs Z.eqb].
    destruct (startswith image_version "1.5"),
      (negb (is_machine_compatible_for_gpu worker_machine)); reflexivity.
  - intros H. now rewrite H.
  - intros n H. now rewrite H.
  - intros n H. now rewrite H.
Qed.

Lemma node_lookup_defaults_witness :
  get_worker_local_ssds (Some bare_capture) = Ret 0
  /\ forall worker_machine image_version r,
       check_all_incompatibilities (Some bare_capture) worker_machine image_version
       = Ret r ->
       dict_get "workerLocalSSDs" r = Some (VInt 1).
Proof.
  apply (proj1 (node_lookup_defaults (Some bare_capture))). reflexivity.
Defined.
